(** * AstroPi Phase 2 flight program ([Phase2/main.py])

    A shallow embedding of the flight program and the properties of its
    EXIF angle conversion, its image arithmetic and its recording cycle.

    Conventions of the embedding.
    - Python floats are read as exact rationals ([Q]); the binary rounding of
      float arithmetic is not modelled.  Where numpy arithmetic leaves the
      finite numbers (a division by zero) the result is one of the
      non-finite values of [Numeric.fval].
    - Python ints that only count upwards from zero ([count], [phcounter])
      are [nat]; [datetime] values are integer microsecond counts ([Z]).
    - Collaborators (sensors, camera, ephemeris, file system, clock) are
      scripted by an environment that says, for every call, whether it
      returns and what, or which exception it raises. *)

From Stdlib Require Import ZArith QArith Qround Qabs Lia Lqa Bool.
From Stdlib Require Import String Ascii DecimalString DecimalNat DecimalZ.
From stdpp Require Import gmap strings list.

(* ===================================================================== *)
(** ** Numbers: rounding, text of integers, non-finite float values *)
(* ===================================================================== *)

Module Numeric.

Local Open Scope Q_scope.

(** [x < y] on floats, as a boolean. *)
Definition Qltb (x y : Q) : bool := negb (Qle_bool y x).

(** Python's [divmod(a, b)] for [b > 0]: floor quotient and remainder. *)
Definition divmod (a b : Q) : Q * Q :=
  let q := inject_Z (Qfloor (a / b)) in (q, a - q * b).

(** Rounding to the nearest integer, ties to even: what both [round(x)] and
    the format specification [.0f] do. *)
Definition round_half_even (x : Q) : Z :=
  let f := Qfloor x in
  match Qcompare (x - inject_Z f) (1 # 2) with
  | Lt => f
  | Gt => (f + 1)%Z
  | Eq => if Z.even f then f else (f + 1)%Z
  end.

(** [str(n)] of an int. *)
Definition str_int (n : Z) : string := NilZero.string_of_int (Z.to_int n).

(** [f'{x:.0f}'] for a float [x >= 0]: the digits of the rounded value. *)
Definition fmt_0f (x : Q) : string := str_int (round_half_even x).

(** [round(x, ndigits)]: rounding at a decimal place, ties to even. *)
Definition round_n (x : Q) (ndigits : nat) : Q :=
  let p := inject_Z (10 ^ Z.of_nat ndigits) in
  inject_Z (round_half_even (x * p)) / p.

(** The digits of a natural number. *)
Definition str_nat (n : nat) : string := NilZero.string_of_uint (Nat.to_uint n).

Fixpoint zeros (k : nat) : string :=
  match k with
  | O => EmptyString
  | S k' => String "0" (zeros k')
  end.

(** [f'{n:03d}'] for [n >= 0]: the digits, padded with zeros to three. *)
Definition fmt_03d (n : nat) : string :=
  let d := str_nat n in (zeros (3 - String.length d) ++ d)%string.

(** The slice [s[:-k]]. *)
Definition drop_last (k : nat) (s : string) : string :=
  substring 0 (String.length s - k) s.

(** A float64 value with rounding left out: a finite number, an infinity or
    not-a-number.  Zero carries no sign here; a zero that arises as [x - x]
    is [+0.0] in IEEE arithmetic, which is the only zero divisor met below. *)
Inductive fval : Type :=
| Fin (q : Q)
| PInf
| NInf
| NaN.

Definition is_finite (v : fval) : bool :=
  match v with Fin _ => true | _ => false end.

(** numpy's float division (a warning, never an exception, on a zero
    divisor). *)
Definition fdiv (a b : Q) : fval :=
  if Qeq_bool b 0 then
    (if Qeq_bool a 0 then NaN else if Qltb a 0 then NInf else PInf)
  else Fin (a / b).

(** Product of a finite number with a float value. *)
Definition fmul (a : Q) (v : fval) : fval :=
  match v with
  | Fin q => Fin (a * q)
  | NaN => NaN
  | PInf => if Qeq_bool a 0 then NaN else if Qltb a 0 then NInf else PInf
  | NInf => if Qeq_bool a 0 then NaN else if Qltb a 0 then PInf else NInf
  end.

(** Sum of a float value and a finite number. *)
Definition fadd (v : fval) (a : Q) : fval :=
  match v with
  | Fin q => Fin (q + a)
  | other => other
  end.

Lemma Qltb_lt (x y : Q) : Qltb x y = true <-> x < y.
Proof.
  unfold Qltb. rewrite negb_true_iff, <- not_true_iff_false, Qle_bool_iff.
  split; [apply Qnot_le_lt | apply Qlt_not_le].
Qed.

Lemma Qltb_ge (x y : Q) : Qltb x y = false <-> y <= x.
Proof.
  unfold Qltb. rewrite negb_false_iff. apply Qle_bool_iff.
Qed.

Lemma append_assoc (a b c : string) :
  ((a ++ b) ++ c = a ++ (b ++ c))%string.
Proof.
  induction a as [| ch a IH]; [reflexivity |].
  change (String ch ((a ++ b) ++ c) = String ch (a ++ (b ++ c)))%string.
  rewrite IH. reflexivity.
Qed.

(** The fractional part that [round_half_even] inspects lies in [0, 1). *)
Lemma frac_range (x : Q) : 0 <= x - inject_Z (Qfloor x) < 1.
Proof.
  pose proof (Qfloor_le x) as Hlo. pose proof (Qlt_floor x) as Hhi.
  rewrite inject_Z_plus in Hhi. change (inject_Z 1) with 1 in Hhi.
  split; lra.
Qed.

(** The rounded value is within one half of the argument. *)
Lemma round_half_even_near (x : Q) :
  Qabs (inject_Z (round_half_even x) - x) <= 1 # 2.
Proof.
  destruct (frac_range x) as [Hlo Hhi].
  unfold round_half_even.
  set (f := Qfloor x) in *.
  apply Qabs_Qle_condition.
  destruct (Qcompare (x - inject_Z f) (1 # 2)) eqn:Hc.
  - apply Qeq_alt in Hc.
    destruct (Z.even f); [| rewrite inject_Z_plus; change (inject_Z 1) with 1];
      split; lra.
  - apply Qlt_alt in Hc. split; lra.
  - apply Qgt_alt in Hc. rewrite inject_Z_plus. change (inject_Z 1) with 1.
    split; lra.
Qed.

Local Open Scope string_scope.

Lemma length_append (a b : string) :
  String.length (a ++ b) = (String.length a + String.length b)%nat.
Proof.
  induction a as [| ch a IH]; [reflexivity |].
  change (S (String.length (a ++ b)) = S (String.length a + String.length b)).
  rewrite IH. reflexivity.
Qed.

Lemma substring_prefix (a b : string) :
  substring 0 (String.length a) (a ++ b) = a.
Proof.
  induction a as [| ch a IH].
  - destruct b; reflexivity.
  - change (String ch (substring 0 (String.length a) (a ++ b)) = String ch a).
    rewrite IH. reflexivity.
Qed.

(** Slicing off a suffix that was appended gives the text back. *)
Lemma drop_last_append (a b : string) :
  drop_last (String.length b) (a ++ b) = a.
Proof.
  unfold drop_last. rewrite length_append.
  replace (String.length a + String.length b - String.length b)%nat
    with (String.length a) by lia.
  apply substring_prefix.
Qed.

Lemma list_of_append (a b : string) :
  list_ascii_of_string (a ++ b)
  = (list_ascii_of_string a ++ list_ascii_of_string b)%list.
Proof.
  induction a as [| ch a IH]; [reflexivity |].
  change (ch :: list_ascii_of_string (a ++ b)
          = ch :: (list_ascii_of_string a ++ list_ascii_of_string b)%list).
  rewrite IH. reflexivity.
Qed.

Lemma list_of_string_inj (a b : string) :
  list_ascii_of_string a = list_ascii_of_string b -> a = b.
Proof.
  intros H. rewrite <- (string_of_list_ascii_of_string a),
    <- (string_of_list_ascii_of_string b), H. reflexivity.
Qed.

Lemma length_list_of_string (a : string) :
  length (list_ascii_of_string a) = String.length a.
Proof.
  induction a as [| ch a IH]; [reflexivity |]. simpl. rewrite IH. reflexivity.
Qed.

(** Equal texts with tails of the same length have equal heads and tails. *)
Lemma append_inj_tail (a b c d : string) :
  String.length c = String.length d -> a ++ c = b ++ d -> a = b /\ c = d.
Proof.
  intros Hlen Heq. apply (f_equal list_ascii_of_string) in Heq.
  rewrite !list_of_append in Heq.
  apply app_inj_2 in Heq; [| rewrite !length_list_of_string; exact Hlen].
  destruct Heq as [H1 H2]. split; apply list_of_string_inj; assumption.
Qed.

Lemma uint_of_zeros (k : nat) (s : string) :
  option_map Nat.of_uint (NilEmpty.uint_of_string (zeros k ++ s))
  = option_map Nat.of_uint (NilEmpty.uint_of_string s).
Proof.
  induction k as [| k IH]; [reflexivity |].
  change (zeros (S k) ++ s) with (String "0" (zeros k ++ s)).
  rewrite <- IH.
  change (NilEmpty.uint_of_string (String "0" (zeros k ++ s)))
    with (option_map Decimal.D0 (NilEmpty.uint_of_string (zeros k ++ s))).
  destruct (NilEmpty.uint_of_string (zeros k ++ s)); reflexivity.
Qed.

(** Reading the padded digits back gives the number. *)
Lemma fmt_03d_value (n : nat) :
  option_map Nat.of_uint (NilEmpty.uint_of_string (fmt_03d n)) = Some n.
Proof.
  unfold fmt_03d. rewrite uint_of_zeros. unfold str_nat.
  assert (H : NilZero.string_of_uint (Nat.to_uint n)
              = NilEmpty.string_of_uint (Nat.to_uint n)).
  { unfold NilZero.string_of_uint.
    destruct (Nat.to_uint n) eqn:E; try reflexivity.
    pose proof (Unsigned.of_to n) as Hn. rewrite E in Hn.
    subst n. discriminate E. }
  rewrite H, NilEmpty.usu. simpl. rewrite Unsigned.of_to. reflexivity.
Qed.

Lemma fmt_03d_inj (n m : nat) : fmt_03d n = fmt_03d m -> n = m.
Proof.
  intros H. pose proof (fmt_03d_value n) as Hn.
  rewrite H, fmt_03d_value in Hn. congruence.
Qed.

End Numeric.

(* ===================================================================== *)
(** ** EXIF angle conversion ([convert], lines 44-53) *)
(* ===================================================================== *)

Module Exif.

Import Numeric.
Local Open Scope Q_scope.
Local Open Scope string_scope.

(** [numpy.sign]. *)
Definition sign (x : Q) : Q :=
  if Qltb x 0 then -1 else if Qltb 0 x then 1 else 0.

(** skyfield's [Angle.signed_dms()], a library call of line 51: the sign and
    the whole degrees, whole minutes and seconds of the magnitude, obtained
    with two [divmod]s from the magnitude in arcseconds. *)
Definition signed_dms (value : Q) : Q * Q * Q * Q :=
  let n := Qabs value in
  let '(minutes, seconds) := divmod (n * 3600) 60 in
  let '(units, minutes) := divmod minutes 60 in
  (sign value, units, minutes, seconds).

(** [convert(angle)]: the flag "negative" and the EXIF text of the angle. *)
Definition convert (angle : Q) : bool * string :=
  let '(sign, degrees, minutes, seconds) := signed_dms angle in
  let exif_angle :=
    fmt_0f degrees ++ "/1," ++ fmt_0f minutes ++ "/1,"
      ++ fmt_0f (seconds * 10) ++ "/10" in
  (Qltb sign 0, exif_angle).

(** An EXIF rational [n/d] and a tag of three of them, as text. *)
Definition rational (n d : Z) : string := str_int n ++ "/" ++ str_int d.

Definition rational_triplet (d m s : string) : string :=
  d ++ "," ++ m ++ "," ++ s.

(** [D], [M], [S] are the degrees, minutes and seconds of [|angle|]. *)
Definition is_dms (angle : Q) (D M : Z) (S : Q) : Prop :=
  (0 <= D)%Z /\ (0 <= M < 60)%Z /\ (0 <= S /\ S < 60) /\
  inject_Z D + inject_Z M / 60 + S / 3600 == Qabs angle.

(** The seconds component of [signed_dms]. *)
Definition seconds_of (angle : Q) : Q := snd (signed_dms angle).

Lemma round_half_even_comp (x y : Q) :
  x == y -> round_half_even x = round_half_even y.
Proof.
  intros H. unfold round_half_even.
  rewrite (Qfloor_comp _ _ H).
  assert (Hc : Qcompare (x - inject_Z (Qfloor y)) (1 # 2)
               = Qcompare (y - inject_Z (Qfloor y)) (1 # 2))
    by (apply Qcompare_comp; [rewrite H|]; reflexivity).
  rewrite Hc. reflexivity.
Qed.

Lemma round_half_even_Z (z : Z) : round_half_even (inject_Z z) = z.
Proof.
  unfold round_half_even. rewrite Qfloor_Z.
  assert (Hc : Qcompare (inject_Z z - inject_Z z) (1 # 2) = Lt)
    by (apply (proj1 (Qlt_alt _ _)); lra).
  rewrite Hc. reflexivity.
Qed.

Lemma fmt_0f_Z (x : Q) (z : Z) : x == inject_Z z -> fmt_0f x = str_int z.
Proof.
  intros H. unfold fmt_0f.
  rewrite (round_half_even_comp _ _ H), round_half_even_Z. reflexivity.
Qed.

Lemma sign_neg (x : Q) : Qltb (sign x) 0 = Qltb x 0.
Proof.
  unfold sign. destruct (Qltb x 0) eqn:H1; [reflexivity |].
  destruct (Qltb 0 x); reflexivity.
Qed.

Lemma concat_tag (d m s : string) :
  d ++ "/1," ++ m ++ "/1," ++ s ++ "/10"
  = rational_triplet (d ++ "/1") (m ++ "/1") (s ++ "/10").
Proof.
  unfold rational_triplet.
  change "/1," with ("/1" ++ ",").
  rewrite !append_assoc. reflexivity.
Qed.

(** What [signed_dms] returns, with the whole parts as integers. *)
Lemma signed_dms_eq (angle : Q) :
  let t := Qabs angle * 3600 in
  let mq := Qfloor (t / 60) in
  signed_dms angle
  = (sign angle,
     inject_Z (Qfloor (inject_Z mq / 60)),
     inject_Z mq - inject_Z (Qfloor (inject_Z mq / 60)) * 60,
     t - inject_Z mq * 60).
Proof. reflexivity. Qed.

Lemma signed_dms_is_dms (angle : Q) :
  let t := Qabs angle * 3600 in
  let mq := Qfloor (t / 60) in
  is_dms angle (mq / 60) (mq mod 60) (t - inject_Z mq * 60)
  /\ inject_Z (Qfloor (inject_Z mq / 60)) == inject_Z (mq / 60)
  /\ inject_Z mq - inject_Z (Qfloor (inject_Z mq / 60)) * 60
     == inject_Z (mq mod 60).
Proof.
  intros t mq.
  assert (Hn : 0 <= Qabs angle) by apply Qabs_nonneg.
  assert (Hfl : Qfloor (inject_Z mq / 60) = (mq / 60)%Z).
  { change 60 with (inject_Z 60). symmetry. apply Zdiv_Qdiv. }
  pose proof (frac_range (t / 60)) as [Hlo Hhi]. fold mq in Hlo, Hhi.
  unfold is_dms. rewrite Hfl. clear Hfl.
  unfold Qdiv in *.
  change (/ 60) with (1 # 60) in *. change (/ 3600) with (1 # 3600) in *.
  assert (Hmq : (0 <= mq)%Z).
  { unfold mq. rewrite <- (Qfloor_Z 0). apply Qfloor_resp_le.
    unfold t. change (inject_Z 0) with 0. lra. }
  pose proof (Z.div_mod mq 60 ltac:(lia)) as Hdm.
  pose proof (Z.mod_pos_bound mq 60 ltac:(lia)) as Hmod.
  assert (HmqQ : inject_Z mq
                 == inject_Z (mq / 60) * 60 + inject_Z (mq mod 60)).
  { rewrite Hdm at 1. rewrite inject_Z_plus, inject_Z_mult.
    change (inject_Z 60) with 60. ring. }
  split; [| split].
  - split; [apply Z.div_pos; lia |].
    split; [exact Hmod |]. split; [split; lra |].
    unfold t in *. lra.
  - reflexivity.
  - lra.
Qed.

(** [convert] on any angle, through the decomposition of [signed_dms]. *)
Lemma convert_eq (angle : Q) :
  let t := Qabs angle * 3600 in
  let mq := Qfloor (t / 60) in
  let S := t - inject_Z mq * 60 in
  convert angle
  = (Qltb angle 0,
     rational_triplet (rational (mq / 60) 1) (rational (mq mod 60) 1)
       (str_int (round_half_even (S * 10)) ++ "/10")).
Proof.
  intros t mq S.
  destruct (signed_dms_is_dms angle) as (_ & HD & HM). fold t mq in HD, HM.
  unfold convert. rewrite signed_dms_eq. fold t mq S.
  rewrite sign_neg, (fmt_0f_Z _ _ HD), (fmt_0f_Z _ _ HM), concat_tag.
  reflexivity.
Qed.

(** An integer caught between two consecutive integers is the lower one. *)
Lemma Qfloor_between (x : Q) (z : Z) :
  inject_Z z <= x -> x < inject_Z (z + 1) -> Qfloor x = z.
Proof.
  intros Hlo Hhi.
  pose proof (Qfloor_le x) as H1. pose proof (Qlt_floor x) as H2.
  assert (H3 : inject_Z (Qfloor x) < inject_Z (z + 1)) by lra.
  assert (H4 : inject_Z z < inject_Z (Qfloor x + 1)) by lra.
  rewrite <- Zlt_Qlt in H3, H4. lia.
Qed.


(** C6. When the seconds of an angle are 59.95 or more, [convert] writes the
    seconds rational as [600/10] and still writes the whole degrees and
    whole minutes of the angle: the rounding is not carried. *)
Theorem convert_seconds_round_to_sixty (angle : Q)
    (Hsec : 5995 # 100 <= seconds_of angle) :
  exists (D M : Z),
    is_dms angle D M (seconds_of angle)
    /\ convert angle
       = (Qltb angle 0,
          rational_triplet (rational D 1) (rational M 1) (rational 600 10)).
Proof.
  destruct (signed_dms_is_dms angle) as (Hdms & _).
  pose proof (convert_eq angle) as Hc. cbv zeta in Hdms, Hc.
  unfold seconds_of in *. rewrite signed_dms_eq in *. cbv zeta in *.
  cbn [snd] in *.
  set (S := Qabs angle * 3600
            - inject_Z (Qfloor (Qabs angle * 3600 / 60)) * 60) in *.
  eexists _, _. split; [exact Hdms |].
  rewrite Hc. do 2 f_equal.
  assert (HS : S < 60) by (destruct Hdms as (_ & _ & [_ H] & _); exact H).
  assert (Hfl : Qfloor (S * 10) = 599%Z).
  { apply Qfloor_between.
    - change (inject_Z 599) with (599 # 1). lra.
    - change (inject_Z (599 + 1)) with (600 # 1). lra. }
  unfold rational. f_equal.
  unfold round_half_even. rewrite Hfl.
  change (inject_Z 599) with (599 # 1).
  destruct (Qcompare (S * 10 - (599 # 1)) (1 # 2)) eqn:Hcmp;
    [reflexivity | | reflexivity].
  apply Qlt_alt in Hcmp. lra.
Qed.

(** An angle of 59.96 arcseconds: the tag reads 0 degrees, 0 minutes and
    60.0 seconds. *)
Lemma convert_seconds_round_to_sixty_witness :
  (5995 # 100 <= seconds_of (5996 # 360000))
  /\ exists (D M : Z),
       is_dms (5996 # 360000) D M (seconds_of (5996 # 360000))
       /\ convert (5996 # 360000)
          = (Qltb (5996 # 360000) 0,
             rational_triplet (rational D 1) (rational M 1)
               (rational 600 10)).
Proof.
  split.
  - vm_compute. discriminate.
  - apply (convert_seconds_round_to_sixty (5996 # 360000)).
    vm_compute. discriminate.
Defined.

(** The tag of [convert] as a function of the magnitude alone. *)
Lemma convert_tag_comp (a b : Q) :
  Qabs a == Qabs b -> snd (convert a) = snd (convert b).
Proof.
  intros Hab. rewrite !convert_eq. cbv zeta. cbn [snd].
  assert (Hmq : Qfloor (Qabs a * 3600 / 60) = Qfloor (Qabs b * 3600 / 60))
    by (apply Qfloor_comp; rewrite Hab; reflexivity).
  rewrite Hmq. do 3 f_equal.
  apply round_half_even_comp. rewrite Hab. reflexivity.
Qed.

(** X1. The tag does not depend on the sign of the angle: [convert(-a)]
    and [convert(a)] write the same three rationals, and for [a] other than
    zero they differ in the flag. *)
Theorem convert_opposite (angle : Q) :
  snd (convert (- angle)) = snd (convert angle)
  /\ (~ angle == 0 ->
      fst (convert (- angle)) = negb (fst (convert angle))).
Proof.
  split.
  - apply convert_tag_comp. apply Qabs_opp.
  - intros Hne. rewrite !convert_eq. cbv zeta. cbn [fst].
    destruct (Qltb (- angle) 0) eqn:H1; destruct (Qltb angle 0) eqn:H2;
      try reflexivity; exfalso.
    + apply Qltb_lt in H1, H2. lra.
    + apply Qltb_ge in H1, H2. apply Hne. lra.
Qed.

(** X2. The angle that the tag spells out, degrees plus minutes over 60
    plus tenths of arcseconds over 36000, is within a twentieth of an
    arcsecond of the magnitude of the angle, and the tenths lie between 0
    and 600. *)
Theorem convert_accuracy (angle : Q) :
  exists (D M n : Z),
    snd (convert angle)
    = rational_triplet (rational D 1) (rational M 1) (rational n 10)
    /\ (0 <= D)%Z /\ (0 <= M < 60)%Z /\ (0 <= n <= 600)%Z
    /\ Qabs (inject_Z D + inject_Z M / 60 + inject_Z n / 36000 - Qabs angle)
       <= 1 # 72000.
Proof.
  destruct (signed_dms_is_dms angle) as ((HD & HM & [HS0 HS1] & Hsum) & _).
  cbv zeta in *.
  set (mq := Qfloor (Qabs angle * 3600 / 60)) in *.
  set (S := Qabs angle * 3600 - inject_Z mq * 60) in *.
  pose proof (round_half_even_near (S * 10)) as Hnear.
  apply Qabs_Qle_condition in Hnear. destruct Hnear as [Hn1 Hn2].
  exists (mq / 60)%Z, (mq mod 60)%Z, (round_half_even (S * 10)).
  split; [rewrite convert_eq; reflexivity |].
  split; [exact HD |]. split; [exact HM |].
  set (n := round_half_even (S * 10)) in *.
  split.
  - assert (H1 : inject_Z (-1) < inject_Z n)
      by (change (inject_Z (-1)) with (-1 # 1); lra).
    assert (H2 : inject_Z n < inject_Z 601)
      by (change (inject_Z 601) with (601 # 1); lra).
    rewrite <- Zlt_Qlt in H1, H2. lia.
  - apply Qabs_Qle_condition.
    unfold Qdiv in *.
    change (/ 60) with (1 # 60) in *. change (/ 3600) with (1 # 3600) in *.
    change (/ 36000) with (1 # 36000).
    split; lra.
Qed.

End Exif.

(* ===================================================================== *)
(** ** Image arithmetic ([contrast_stretch], [calc_ndvi], lines 72-90) *)
(* ===================================================================== *)

Module Image.

Import Numeric.
Local Open Scope Q_scope.

(** A numpy array is read through its flat buffer of elements; elementwise
    operations and [np.percentile] do not look at the shape.  A three
    channel image is the list of its pixels, each (blue, green, red). *)
Definition pixel : Type := Q * Q * Q.

(** The flat buffer of a three channel image. *)
Definition ravel (im : list pixel) : list Q :=
  flat_map (fun px => let '(b, g, r) := px in [b; g; r]) im.

(** [cv.split]: the blue, green and red planes. *)
Definition split (im : list pixel) : list Q * list Q * list Q :=
  (map (fun px => fst (fst px)) im,
   map (fun px => snd (fst px)) im,
   map (fun px => snd px) im).

Fixpoint insert_sorted (x : Q) (l : list Q) : list Q :=
  match l with
  | [] => [x]
  | y :: l' => if Qle_bool x y then x :: l else y :: insert_sorted x l'
  end.

Definition sort (l : list Q) : list Q := fold_right insert_sorted [] l.

(** [np.percentile(a, q)] with numpy's default linear interpolation: in the
    sorted buffer of [n] elements the virtual index is [(n - 1) * q / 100];
    the result interpolates between the elements at its floor and at the
    next index (kept within the buffer).  An empty buffer has no
    percentile. *)
Definition percentile (a : list Q) (q : Q) : option Q :=
  match sort a with
  | [] => None
  | (first :: _) as s =>
      let idx := (q / 100) * inject_Z (Z.of_nat (length s) - 1) in
      let lo := Qfloor idx in
      let gamma := idx - inject_Z lo in
      let below := nth (Z.to_nat lo) s first in
      let above := nth (Z.to_nat (lo + 1)) s (List.last s first) in
      Some (below + gamma * (above - below))
  end.

(** The factor of line 80, [(out_min - out_max) / (in_min - in_max)]. *)
Definition scale_factor (in_min in_max : Q) : fval :=
  let out_min := 0 in
  let out_max := 255 in
  fdiv (out_min - out_max) (in_min - in_max).

(** [contrast_stretch(im)]. *)
Definition contrast_stretch (im : list Q) : option (list fval) :=
  match percentile im 5, percentile im 95 with
  | Some in_min, Some in_max =>
      let out := map (fun x => x - in_min) im in
      let out := map (fun x => fmul x (scale_factor in_min in_max)) out in
      let out := map (fun v => fadd v in_min) out in
      Some out
  | _, _ => None
  end.

(** [bottom[bottom == 0] = 0.01] on one entry. *)
Definition guard_zero (x : Q) : Q := if Qeq_bool x 0 then 1 # 100 else x.

(** Lines 86-88 of [calc_ndvi]: the divisors, after the substitution. *)
Definition ndvi_bottom (im : list pixel) : list Q :=
  let '(b, g, r) := split im in
  let bottom := zip_with Qplus r b in
  map guard_zero bottom.

(** [calc_ndvi(im)]. *)
Definition calc_ndvi (im : list pixel) : list fval :=
  let '(b, g, r) := split im in
  let bottom := ndvi_bottom im in
  zip_with fdiv (zip_with Qminus b r) bottom.

(** The transform of the specification, on one intensity:
    [(x - p5) * ((0 - 255) / (p5 - p95)) + p5]. *)
Definition stretch_formula (p5 p95 x : Q) : Q :=
  (x - p5) * ((0 - 255) / (p5 - p95)) + p5.

(** The quotient of the specification for one pixel:
    [(B - R) / denominator], the denominator being [R + B], or [0.01] when
    that sum is zero. *)
Definition ndvi_formula (px : pixel) : Q :=
  let '(b, _, r) := px in
  (b - r) / (if Qeq_bool (r + b) 0 then 1 # 100 else r + b).

Lemma insert_sorted_length (x : Q) (l : list Q) :
  length (insert_sorted x l) = S (length l).
Proof.
  induction l as [| y l IH]; simpl; [reflexivity |].
  destruct (Qle_bool x y); simpl; [| rewrite IH]; reflexivity.
Qed.

Lemma sort_length (l : list Q) : length (sort l) = length l.
Proof.
  induction l as [| x l IH]; [reflexivity |].
  change (sort (x :: l)) with (insert_sorted x (sort l)).
  rewrite insert_sorted_length, IH. reflexivity.
Qed.

(** Every non-empty buffer has its percentiles. *)
Lemma percentile_nonempty (x : Q) (im : list Q) (q : Q) :
  exists p, percentile (x :: im) q = Some p.
Proof.
  unfold percentile. pose proof (sort_length (x :: im)) as Hlen.
  destruct (sort (x :: im)); [discriminate | eexists; reflexivity].
Qed.

Lemma insert_sorted_repeat (c : Q) (n : nat) :
  insert_sorted c (repeat c n) = c :: repeat c n.
Proof.
  destruct n as [| n]; simpl; [reflexivity |].
  assert (H : Qle_bool c c = true) by (apply Qle_bool_iff; apply Qle_refl).
  rewrite H. reflexivity.
Qed.

Lemma sort_repeat (c : Q) (n : nat) : sort (repeat c n) = repeat c n.
Proof.
  induction n as [| n IH]; [reflexivity |].
  change (sort (repeat c (S n))) with (insert_sorted c (sort (repeat c n))).
  rewrite IH. apply insert_sorted_repeat.
Qed.

Lemma last_repeat (c d : Q) (n : nat) : List.last (repeat c (S n)) d = c.
Proof.
  induction n as [| n IH]; [reflexivity |].
  change (repeat c (S (S n))) with (c :: repeat c (S n)).
  simpl List.last. exact IH.
Qed.

(** Every percentile of a constant buffer is the constant. *)
Lemma percentile_constant (c : Q) (n : nat) (q : Q) :
  exists p, percentile (repeat c (S n)) q = Some p /\ p == c.
Proof.
  unfold percentile. rewrite sort_repeat.
  change (repeat c (S n)) with (c :: repeat c n) at 1.
  cbv beta iota zeta. change (c :: repeat c n) with (repeat c (S n)).
  rewrite last_repeat, !nth_repeat.
  eexists. split; [reflexivity | ring].
Qed.

Lemma scale_factor_finite (p5 p95 : Q) :
  ~ p5 == p95 -> scale_factor p5 p95 = Fin ((0 - 255) / (p5 - p95)).
Proof.
  intros Hne. unfold scale_factor, fdiv.
  destruct (Qeq_bool (p5 - p95) 0) eqn:Hz; [| reflexivity].
  apply Qeq_bool_iff in Hz. exfalso. apply Hne. lra.
Qed.

Lemma scale_factor_zero_divisor (p5 p95 : Q) :
  p5 == p95 -> scale_factor p5 p95 = NInf.
Proof.
  intros Heq. unfold scale_factor, fdiv.
  assert (Hz : Qeq_bool (p5 - p95) 0 = true) by (apply Qeq_bool_iff; lra).
  rewrite Hz. reflexivity.
Qed.

Lemma fmul_infinite (a p : Q) : is_finite (fadd (fmul a NInf) p) = false.
Proof.
  unfold fmul. destruct (Qeq_bool a 0); [reflexivity |].
  destruct (Qltb a 0); reflexivity.
Qed.

Lemma stretch_infinite (p : Q) (im : list Q) :
  Forall (fun v => is_finite v = false)
    (map (fun x => fadd (fmul (x - p) NInf) p) im).
Proof.
  induction im as [| x im IH]; constructor;
    [apply fmul_infinite | exact IH].
Qed.

(** [contrast_stretch] as one pass over the buffer. *)
Lemma contrast_stretch_eq (im : list Q) (p5 p95 : Q) :
  percentile im 5 = Some p5 -> percentile im 95 = Some p95 ->
  contrast_stretch im
  = Some (map (fun x => fadd (fmul (x - p5) (scale_factor p5 p95)) p5) im).
Proof.
  intros H5 H95. unfold contrast_stretch. rewrite H5, H95.
  rewrite !map_map. reflexivity.
Qed.

Lemma guard_zero_nonzero (x : Q) : ~ guard_zero x == 0.
Proof.
  unfold guard_zero. destruct (Qeq_bool x 0) eqn:Hz.
  - intros H. discriminate H.
  - apply Qeq_bool_neq. exact Hz.
Qed.

Lemma fdiv_guarded (a x : Q) :
  fdiv a (guard_zero x) = Fin (a / guard_zero x).
Proof.
  unfold fdiv. destruct (Qeq_bool (guard_zero x) 0) eqn:Hz; [| reflexivity].
  apply Qeq_bool_iff in Hz. destruct (guard_zero_nonzero x Hz).
Qed.

Example percentile_5_of_four :
  option_map Qred (percentile [4; 1; 3; 2] 5) = Some (23 # 20).
Proof. reflexivity. Qed.

Example percentile_95_of_four :
  option_map Qred (percentile [4; 1; 3; 2] 95) = Some (77 # 20).
Proof. reflexivity. Qed.

(** C3. With [p5] and [p95] the 5th and 95th percentiles of the whole
    buffer of the image, [contrast_stretch] returns, entry by entry,
    [(x - p5) * ((0 - 255) / (p5 - p95)) + p5]: in float arithmetic for every
    image, hence as the rational [stretch_formula] whenever the two
    percentiles differ.  The term added last is [p5]: an intensity equal to
    [p5] stays [p5] and one equal to [p95] becomes [255 + p5]. *)
Theorem contrast_stretch_formula (im : list Q) (p5 p95 : Q)
    (H5 : percentile im 5 = Some p5) (H95 : percentile im 95 = Some p95) :
  contrast_stretch im
  = Some (map (fun x => fadd (fmul (x - p5) (fdiv (0 - 255) (p5 - p95))) p5)
            im)
  /\ (~ p5 == p95 ->
      contrast_stretch im = Some (map (fun x => Fin (stretch_formula p5 p95 x)) im)
      /\ stretch_formula p5 p95 p5 == p5
      /\ stretch_formula p5 p95 p95 == 255 + p5).
Proof.
  split; [apply contrast_stretch_eq; assumption |].
  intros Hne. split; [| split].
  - rewrite (contrast_stretch_eq im p5 p95 H5 H95).
    rewrite (scale_factor_finite p5 p95 Hne). reflexivity.
  - unfold stretch_formula. field. intros H. apply Hne. lra.
  - unfold stretch_formula. field. intros H. apply Hne. lra.
Qed.

(** A two pixel colour image whose channels differ: the percentiles are
    taken over all six intensities. *)
Lemma contrast_stretch_formula_witness :
  let im := ravel [(0, 10, 20); (30, 40, 50)] in
  percentile im 5 = Some (250 # 100)
  /\ percentile im 95 = Some (4750 # 100)
  /\ contrast_stretch im
     = Some (map (fun x => Fin (stretch_formula (250 # 100) (4750 # 100) x))
               im).
Proof.
  split; [reflexivity |]. split; [reflexivity |].
  apply (contrast_stretch_formula (ravel [(0, 10, 20); (30, 40, 50)])
           (250 # 100) (4750 # 100) eq_refl eq_refl).
  vm_compute. discriminate.
Defined.

(** C4. [calc_ndvi] returns, for every pixel, the finite quotient
    [(B - R) / denominator] with the denominator [R + B], or [0.01] where
    that sum is zero; no divisor is zero; a pixel with red = blue = 0 gets
    the value 0. *)
Theorem calc_ndvi_guarded (im : list pixel) :
  calc_ndvi im = map (fun px => Fin (ndvi_formula px)) im
  /\ Forall (fun d => ~ d == 0) (ndvi_bottom im)
  /\ (forall g : Q, ndvi_formula (0, g, 0) == 0).
Proof.
  split; [| split].
  - unfold calc_ndvi, ndvi_bottom, split.
    induction im as [| [[b g] r] im IH]; [reflexivity |].
    cbn [map zip_with fst snd] in *. rewrite IH, fdiv_guarded. reflexivity.
  - unfold ndvi_bottom, split.
    induction im as [| [[b g] r] im IH]; [constructor |].
    cbn [map zip_with fst snd]. constructor; [apply guard_zero_nonzero | exact IH].
  - intros g. reflexivity.
Qed.

(** C10. When the 5th and 95th percentiles of an image are equal, the
    divisor [in_min - in_max] of line 80 is zero and nothing in
    [contrast_stretch] stands in the way: the factor is infinite and no entry
    of the returned image is a finite number.  Every constant image is such
    an image ([percentile_constant]). *)
Theorem contrast_stretch_zero_divisor (im : list Q) (p5 p95 : Q)
    (H5 : percentile im 5 = Some p5) (H95 : percentile im 95 = Some p95)
    (Heq : p5 == p95) :
  p5 - p95 == 0
  /\ scale_factor p5 p95 = NInf
  /\ exists out : list fval,
       contrast_stretch im = Some out
       /\ length out = length im
       /\ Forall (fun v => is_finite v = false) out.
Proof.
  split; [lra |]. split; [apply scale_factor_zero_divisor; exact Heq |].
  eexists. split; [apply (contrast_stretch_eq im p5 p95 H5 H95) |].
  rewrite (scale_factor_zero_divisor p5 p95 Heq).
  split; [apply length_map | apply stretch_infinite].
Qed.

(** The constant image of three intensities 1/2. *)
Lemma contrast_stretch_zero_divisor_witness :
  let im := repeat (1 # 2) 3 in
  percentile im 5 = Some (400 # 800)
  /\ percentile im 95 = Some (400 # 800)
  /\ scale_factor (400 # 800) (400 # 800) = NInf
  /\ contrast_stretch im = Some [NaN; NaN; NaN].
Proof.
  cbv zeta. split; [reflexivity |]. split; [reflexivity |].
  destruct (contrast_stretch_zero_divisor (repeat (1 # 2) 3)
              (400 # 800) (400 # 800) eq_refl eq_refl (Qeq_refl _))
    as (_ & Hfac & _).
  split; [exact Hfac | reflexivity].
Defined.

(** *** More on [calc_ndvi] and on the order that [contrast_stretch] keeps *)

Lemma calc_ndvi_pointwise (im : list pixel) :
  calc_ndvi im = map (fun px => Fin (ndvi_formula px)) im.
Proof.
  unfold calc_ndvi, ndvi_bottom, split.
  induction im as [| [[b g] r] im IH]; [reflexivity |].
  cbn [map zip_with fst snd] in *. rewrite IH, fdiv_guarded. reflexivity.
Qed.

Lemma ndvi_formula_range (b g r : Q) :
  0 <= b -> 0 <= r ->
  -1 <= ndvi_formula (b, g, r) /\ ndvi_formula (b, g, r) <= 1.
Proof.
  intros Hb Hr. unfold ndvi_formula.
  destruct (Qeq_bool (r + b) 0) eqn:Hz.
  - apply Qeq_bool_iff in Hz.
    assert (H0 : (b - r) / (1 # 100) == 0).
    { unfold Qdiv. change (/ (1 # 100)) with (100 # 1).
      assert (Hbr : b - r == 0) by lra. rewrite Hbr. reflexivity. }
    rewrite H0. split; discriminate.
  - apply Qeq_bool_neq in Hz.
    assert (Hpos : 0 < r + b).
    { destruct (Qlt_le_dec 0 (r + b)) as [H | H]; [exact H |].
      exfalso. apply Hz. lra. }
    split; [apply Qle_shift_div_l | apply Qle_shift_div_r]; lra.
Qed.

(** X3. On an image whose blue and red intensities are not negative, as
    they are in a captured image, every value of [calc_ndvi] is a finite
    number between -1 and 1. *)
Theorem calc_ndvi_range (im : list pixel)
    (Hpos : Forall (fun px : pixel => 0 <= fst (fst px) /\ 0 <= snd px) im) :
  length (calc_ndvi im) = length im
  /\ Forall (fun v => exists q, v = Fin q /\ -1 <= q /\ q <= 1)
       (calc_ndvi im).
Proof.
  rewrite calc_ndvi_pointwise. split; [apply length_map |].
  induction Hpos as [| [[b g] r] im [Hb Hr] _ IH]; [constructor |].
  cbn [map]. constructor; [| exact IH].
  eexists. split; [reflexivity |].
  apply ndvi_formula_range; assumption.
Qed.

Lemma calc_ndvi_range_witness :
  Forall (fun px : pixel => 0 <= fst (fst px) /\ 0 <= snd px)
    [(1 # 2, 1, 0); (0, 1 # 3, 0); (1 # 4, 0, 3 # 4)]
  /\ Forall (fun v => exists q, v = Fin q /\ -1 <= q /\ q <= 1)
       (calc_ndvi [(1 # 2, 1, 0); (0, 1 # 3, 0); (1 # 4, 0, 3 # 4)]).
Proof.
  assert (H : Forall (fun px : pixel => 0 <= fst (fst px) /\ 0 <= snd px)
                [(1 # 2, 1, 0); (0, 1 # 3, 0); (1 # 4, 0, 3 # 4)])
    by (repeat constructor; cbn; discriminate).
  split; [exact H |].
  exact (proj2 (calc_ndvi_range _ H)).
Defined.

(** Outside that range of inputs the bound fails: a stretched image can hold
    negative intensities. *)
Example calc_ndvi_out_of_range :
  calc_ndvi [(- (1), 0, 2)] = [Fin ((- (1) - 2) / (2 + - (1)))].
Proof. reflexivity. Qed.

(** A list in ascending order. *)
Fixpoint sorted (l : list Q) : Prop :=
  match l with
  | [] => True
  | a :: l' => Forall (Qle a) l' /\ sorted l'
  end.

(** The interpolation step of [percentile], on a sorted buffer. *)
Definition interp (s : list Q) (first idx : Q) : Q :=
  let lo := Qfloor idx in
  let gamma := idx - inject_Z lo in
  let below := nth (Z.to_nat lo) s first in
  let above := nth (Z.to_nat (lo + 1)) s (List.last s first) in
  below + gamma * (above - below).

Lemma percentile_interp (a : list Q) (q : Q) :
  percentile a q
  = match sort a with
    | [] => None
    | (first :: _) as s =>
        Some (interp s first
                ((q / 100) * inject_Z (Z.of_nat (length s) - 1)))
    end.
Proof. reflexivity. Qed.

Lemma insert_sorted_above (a x : Q) (l : list Q) :
  a <= x -> Forall (Qle a) l -> Forall (Qle a) (insert_sorted x l).
Proof.
  intros Hax Hl. induction Hl as [| y l Hy Hl IH]; cbn.
  - constructor; [exact Hax | constructor].
  - destruct (Qle_bool x y); repeat constructor; assumption.
Qed.

Lemma insert_sorted_sorted (x : Q) (l : list Q) :
  sorted l -> sorted (insert_sorted x l).
Proof.
  induction l as [| y l IH]; intros Hs; cbn.
  - split; [constructor | exact I].
  - destruct Hs as [Hy Hs]. destruct (Qle_bool x y) eqn:Hxy.
    + apply Qle_bool_iff in Hxy. split; [| split; assumption].
      constructor; [exact Hxy |].
      eapply Forall_impl; [exact Hy |].
      intros z Hz. cbn. apply (Qle_trans _ y); assumption.
    + assert (Hyx : y <= x).
      { destruct (Qlt_le_dec y x) as [H | H]; [apply Qlt_le_weak; exact H |].
        apply Qle_bool_iff in H. congruence. }
      split; [apply insert_sorted_above; assumption | apply IH; exact Hs].
Qed.

Lemma sort_sorted (l : list Q) : sorted (sort l).
Proof.
  induction l as [| x l IH]; [exact I |].
  change (sort (x :: l)) with (insert_sorted x (sort l)).
  apply insert_sorted_sorted. exact IH.
Qed.

Lemma sorted_nth (l : list Q) :
  sorted l ->
  forall (i j : nat) (d : Q),
    (i <= j)%nat -> (j < length l)%nat -> nth i l d <= nth j l d.
Proof.
  induction l as [| a l IH]; intros Hs i j d Hij Hj; [cbn in Hj; lia |].
  destruct Hs as [Ha Hs]. destruct j as [| j].
  - assert (i = 0%nat) by lia. subst i. apply Qle_refl.
  - cbn in Hj. destruct i as [| i]; cbn.
    + rewrite List.Forall_forall in Ha. apply Ha. apply nth_In. lia.
    + apply IH; [exact Hs | lia | lia].
Qed.

Lemma last_as_nth (l : list Q) (d : Q) :
  l <> [] -> List.last l d = nth (length l - 1) l d.
Proof.
  induction l as [| a l IH]; intros Hne; [congruence |].
  destruct l as [| b l]; [reflexivity |].
  change (List.last (a :: b :: l) d) with (List.last (b :: l) d).
  rewrite IH by discriminate.
  replace (length (a :: b :: l) - 1)%nat with (S (length (b :: l) - 1))
    by (cbn [length]; lia).
  reflexivity.
Qed.

Lemma interp_form (s : list Q) (first idx : Q) :
  s <> [] -> 0 <= idx -> idx <= inject_Z (Z.of_nat (length s) - 1) ->
  let k := Z.to_nat (Qfloor idx) in
  (k <= length s - 1)%nat
  /\ Qfloor idx = Z.of_nat k
  /\ interp s first idx
     = nth k s first
       + (idx - inject_Z (Qfloor idx))
         * (nth (Nat.min (k + 1) (length s - 1)) s first - nth k s first).
Proof.
  intros Hne H0 Hn k.
  assert (Hlen : (0 < length s)%nat) by (destruct s; [congruence | cbn; lia]).
  assert (Hlo : (0 <= Qfloor idx)%Z).
  { rewrite <- (Qfloor_Z 0). apply Qfloor_resp_le. exact H0. }
  assert (Hhi : (Qfloor idx <= Z.of_nat (length s) - 1)%Z).
  { rewrite <- (Qfloor_Z (Z.of_nat (length s) - 1)).
    apply Qfloor_resp_le. exact Hn. }
  assert (Hk : Qfloor idx = Z.of_nat k) by (unfold k; lia).
  split; [lia |]. split; [exact Hk |].
  unfold interp. cbv zeta. fold k.
  replace (Z.to_nat (Qfloor idx + 1)) with (k + 1)%nat by lia.
  destruct (Nat.lt_ge_cases (k + 1) (length s)) as [Hin | Hout].
  - rewrite (nth_indep s (List.last s first) first Hin).
    rewrite Nat.min_l by lia. reflexivity.
  - rewrite (nth_overflow s (List.last s first) Hout).
    rewrite (last_as_nth s first Hne).
    rewrite Nat.min_r by lia. reflexivity.
Qed.

Lemma interp_mono (s : list Q) (first idx1 idx2 : Q) :
  sorted s -> s <> [] ->
  0 <= idx1 -> idx1 <= idx2 ->
  idx2 <= inject_Z (Z.of_nat (length s) - 1) ->
  interp s first idx1 <= interp s first idx2.
Proof.
  intros Hs Hne H0 H12 Hn.
  assert (Hlen : (0 < length s)%nat) by (destruct s; [congruence | cbn; lia]).
  destruct (interp_form s first idx1 Hne H0 ltac:(lra)) as (Hk1 & Hf1 & ->).
  destruct (interp_form s first idx2 Hne ltac:(lra) Hn) as (Hk2 & Hf2 & ->).
  set (k1 := Z.to_nat (Qfloor idx1)) in *.
  set (k2 := Z.to_nat (Qfloor idx2)) in *.
  pose proof (frac_range idx1) as [Hg1 Hg1'].
  pose proof (frac_range idx2) as [Hg2 Hg2'].
  assert (Hk12 : (k1 <= k2)%nat).
  { pose proof (Qfloor_resp_le _ _ H12). lia. }
  assert (Hb1 : nth k1 s first <= nth (Nat.min (k1 + 1) (length s - 1)) s first)
    by (apply sorted_nth; [exact Hs | lia | lia]).
  assert (Hb2 : nth k2 s first <= nth (Nat.min (k2 + 1) (length s - 1)) s first)
    by (apply sorted_nth; [exact Hs | lia | lia]).
  destruct (Nat.eq_dec k1 k2) as [Heq | Hneq].
  - rewrite <- Heq in *. 
    assert (Hfl : Qfloor idx2 = Qfloor idx1) by lia.
    rewrite Hfl in *.
    nra.
  - assert (Hmid : nth (Nat.min (k1 + 1) (length s - 1)) s first <= nth k2 s first)
      by (apply sorted_nth; [exact Hs | lia | lia]).
    nra.
Qed.

(** The percentiles of a buffer are in the order of their ranks. *)
Lemma percentile_order (a : list Q) (q1 q2 p1 p2 : Q) :
  0 <= q1 -> q1 <= q2 -> q2 <= 100 ->
  percentile a q1 = Some p1 -> percentile a q2 = Some p2 -> p1 <= p2.
Proof.
  intros H0 H12 H100. rewrite !percentile_interp.
  pose proof (sort_sorted a) as Hs.
  destruct (sort a) as [| first s] eqn:Hsort; [discriminate |].
  intros H1 H2. injection H1 as <-. injection H2 as <-.
  assert (Hm : 0 <= inject_Z (Z.of_nat (length (first :: s)) - 1)).
  { change 0 with (inject_Z 0). rewrite <- Zle_Qle. cbn [length]. lia. }
  unfold Qdiv. change (/ 100) with (1 # 100).
  apply interp_mono; [exact Hs | discriminate | | |];
    cbn [length] in *;
    set (m := inject_Z (Z.of_nat (S (length s)) - 1)) in *;
    assert (Ha : 0 <= q1 * m) by (apply Qmult_le_0_compat; lra);
    assert (Hb : 0 <= (q2 - q1) * m) by (apply Qmult_le_0_compat; lra);
    assert (Hc : 0 <= (100 - q2) * m) by (apply Qmult_le_0_compat; lra);
    lra.
Qed.

(** X4. When the two percentiles of an image differ, the lower one is the
    5th, and [contrast_stretch] keeps the order of the intensities: a
    brighter entry stays at least as bright, and the intensities between the
    percentiles land between [p5] and [p5 + 255]. *)
Theorem contrast_stretch_monotone (im : list Q) (p5 p95 : Q)
    (H5 : percentile im 5 = Some p5) (H95 : percentile im 95 = Some p95)
    (Hne : ~ p5 == p95) :
  p5 < p95
  /\ contrast_stretch im
     = Some (map (fun x => Fin (stretch_formula p5 p95 x)) im)
  /\ (forall x y, x <= y ->
        stretch_formula p5 p95 x <= stretch_formula p5 p95 y)
  /\ (forall x, p5 <= x -> x <= p95 ->
        p5 <= stretch_formula p5 p95 x
        /\ stretch_formula p5 p95 x <= 255 + p5).
Proof.
  assert (Hle : p5 <= p95).
  { apply (percentile_order im 5 95 p5 p95); try assumption; discriminate. }
  assert (Hlt : p5 < p95).
  { destruct (Qlt_le_dec p5 p95) as [H | H]; [exact H |].
    exfalso. apply Hne. lra. }
  assert (Hk : (0 - 255) / (p5 - p95) == 255 / (p95 - p5))
    by (field; split; lra).
  assert (Hpos : 0 < 255 / (p95 - p5)) by (apply Qlt_shift_div_l; lra).
  assert (Hspan : 255 / (p95 - p5) * (p95 - p5) == 255) by (field; lra).
  split; [exact Hlt |]. split.
  - rewrite (contrast_stretch_eq im p5 p95 H5 H95).
    rewrite (scale_factor_finite p5 p95 Hne). reflexivity.
  - unfold stretch_formula. split.
    + intros x y Hxy. rewrite Hk. nra.
    + intros x Hx1 Hx2. rewrite Hk. split; nra.
Qed.

Lemma contrast_stretch_monotone_witness :
  let im := ravel [(0, 10, 20); (30, 40, 50)] in
  percentile im 5 = Some (250 # 100)
  /\ percentile im 95 = Some (4750 # 100)
  /\ forall x y, x <= y ->
       stretch_formula (250 # 100) (4750 # 100) x
       <= stretch_formula (250 # 100) (4750 # 100) y.
Proof.
  split; [reflexivity |]. split; [reflexivity |].
  assert (Hne : ~ (250 # 100) == (4750 # 100)) by (vm_compute; discriminate).
  exact (proj1 (proj2 (proj2
           (contrast_stretch_monotone (ravel [(0, 10, 20); (30, 40, 50)])
              (250 # 100) (4750 # 100) eq_refl eq_refl Hne)))).
Defined.

End Image.

(* ===================================================================== *)
(** ** The flight program (lines 29-41 and 92-183) *)
(* ===================================================================== *)

Module Mission.

Import Numeric.
Local Open Scope string_scope.

(** *** Data *)

(** A raised exception: [e.__class__.__name__] and [str(e)]. *)
Record exn : Type := Exn { exn_class : string; exn_message : string }.

(** How a call ends: it returns a value or raises. *)
Inductive outcome (A : Type) : Type :=
| Ret (a : A)
| Raise (e : exn).
Arguments Ret {A} a.
Arguments Raise {A} e.

(** A value handed to [csv.writer]. *)
Inductive cell : Type :=
| Int (n : nat)
| Text (s : string)
| Float (q : Q).

(** A sensor dictionary with keys x, y, z. *)
Record xyz : Type := { x : Q; y : Q; z : Q }.

(** The orientation dictionary. *)
Record attitude : Type := { pitch : Q; roll : Q; yaw : Q }.

(** What the four reads of one iteration return (lines 121-142). *)
Record readings : Type := {
  location : Q * Q;          (* latitude.degrees, longitude.degrees *)
  rawComp : xyz;
  rawAcc : xyz;
  orient : attitude
}.

(** What a file holds.  Pictures are named by the row during which they
    were taken; a raw capture also carries the EXIF tags of the camera. *)
Inductive content : Type :=
| Csv (lines : list (list cell))
| RawPhoto (row : nat) (tags : gmap string string)
| StretchedPhoto (row : nat)
| NdviMap (row : nat).

Inductive level : Type := INFO | ERROR.

(** A line of the standard output: a text, or the tuple of [print(data)]. *)
Inductive printed : Type :=
| Line (s : string)
| Tuple (data : list cell).

(** The program variables and everything the program writes to. *)
Record machine : Type := {
  count : option nat;               (* unbound before line 99 *)
  phcounter : nat;
  start_time : Z;
  now_time : Z;
  filename : string;
  exif_tags : gmap string string;   (* cam.exif_tags *)
  files : gmap string content;
  events : list (level * string);   (* events.log, this run *)
  stdout : list printed
}.

(** *** The collaborators, scripted *)

(** What the parts of the prologue (lines 95-113) do. *)
Record boot : Type := {
  b_ephemeris : outcome unit;       (* lines 95-96 *)
  b_start_time : Z;                 (* datetime.now(), line 101 *)
  b_now_time : Z;                   (* datetime.now(), line 102 *)
  b_folders : outcome unit;         (* lines 105-108 *)
  b_filetime : Z;                   (* datetime.now(), line 109 *)
  b_create : outcome unit;          (* open(data_file, 'w'), line 31 *)
  b_started : Z                     (* datetime.now(), line 113 *)
}.

(** What the collaborators do during one iteration of the cycle. *)
Record tick : Type := {
  t_timestmp : Z;                        (* datetime.now(), line 118 *)
  t_coordinates : outcome (Q * Q);       (* ISS.coordinates(), line 121 *)
  t_compass : outcome xyz;               (* lines 124-125 *)
  t_accelerometer : outcome xyz;         (* lines 134-135 *)
  t_orientation : outcome attitude;      (* lines 141-142 *)
  t_append : outcome unit;               (* open(data_file, 'a'), line 39 *)
  t_sunlit : outcome bool;               (* line 156 *)
  t_capture_coordinates : outcome (Q * Q);   (* line 57 *)
  t_camera : outcome unit;               (* camera.capture, line 70 *)
  t_stretch : outcome unit;              (* lines 162-164 *)
  t_ndvi : outcome unit;                 (* lines 166-169 *)
  t_now : Z                              (* datetime.now(), line 173 *)
}.

(** Library functions the program calls and whose results are only passed
    on: the folder of the program, [str] and [strftime] of a datetime, and
    [math.sqrt]. *)
Record host : Type := {
  base_folder : string;
  str_datetime : Z -> string;
  strftime : Z -> string -> string;
  sqrt : Q -> Q
}.

(** *** The monad of the program: state that survives a raised exception *)

Definition M (A : Type) : Type := machine -> outcome A * machine.

Definition ret {A : Type} (a : A) : M A := fun s => (Ret a, s).

Definition bind {A B : Type} (m : M A) (k : A -> M B) : M B :=
  fun s =>
    match m s with
    | (Ret a, s') => k a s'
    | (Raise e, s') => (Raise e, s')
    end.

(** A call into a collaborator: it ends as the script says. *)
Definition call {A : Type} (o : outcome A) : M A := fun s => (o, s).

Definition modify (f : machine -> machine) : M unit :=
  fun s => (Ret tt, f s).

Definition get {A : Type} (f : machine -> A) : M A := fun s => (Ret (f s), s).

Declare Scope prog_scope.
Delimit Scope prog_scope with prog.
Notation "v <- m ;; k" := (bind m (fun v => k))
  (at level 100, m at next level, right associativity) : prog_scope.
Notation "m ;; k" := (bind m (fun _ => k))
  (at level 100, right associativity) : prog_scope.

(** Sequencing of scripted calls alone. *)
Definition and_then {A B : Type} (o : outcome A) (k : A -> outcome B)
  : outcome B :=
  match o with
  | Ret a => k a
  | Raise e => Raise e
  end.

(** Field updates. *)
Definition set_count (c : option nat) (s : machine) : machine :=
  {| count := c; phcounter := phcounter s; start_time := start_time s;
     now_time := now_time s; filename := filename s;
     exif_tags := exif_tags s; files := files s; events := events s;
     stdout := stdout s |}.

Definition set_phcounter (n : nat) (s : machine) : machine :=
  {| count := count s; phcounter := n; start_time := start_time s;
     now_time := now_time s; filename := filename s;
     exif_tags := exif_tags s; files := files s; events := events s;
     stdout := stdout s |}.

Definition set_start_time (t : Z) (s : machine) : machine :=
  {| count := count s; phcounter := phcounter s; start_time := t;
     now_time := now_time s; filename := filename s;
     exif_tags := exif_tags s; files := files s; events := events s;
     stdout := stdout s |}.

Definition set_now_time (t : Z) (s : machine) : machine :=
  {| count := count s; phcounter := phcounter s; start_time := start_time s;
     now_time := t; filename := filename s;
     exif_tags := exif_tags s; files := files s; events := events s;
     stdout := stdout s |}.

Definition set_filename (f : string) (s : machine) : machine :=
  {| count := count s; phcounter := phcounter s; start_time := start_time s;
     now_time := now_time s; filename := f;
     exif_tags := exif_tags s; files := files s; events := events s;
     stdout := stdout s |}.

Definition set_exif_tag (k v : string) (s : machine) : machine :=
  {| count := count s; phcounter := phcounter s; start_time := start_time s;
     now_time := now_time s; filename := filename s;
     exif_tags := <[k := v]> (exif_tags s); files := files s;
     events := events s; stdout := stdout s |}.

Definition write_file (path : string) (c : content) (s : machine) : machine :=
  {| count := count s; phcounter := phcounter s; start_time := start_time s;
     now_time := now_time s; filename := filename s;
     exif_tags := exif_tags s; files := <[path := c]> (files s);
     events := events s; stdout := stdout s |}.

Definition log_event (l : level) (msg : string) (s : machine) : machine :=
  {| count := count s; phcounter := phcounter s; start_time := start_time s;
     now_time := now_time s; filename := filename s;
     exif_tags := exif_tags s; files := files s;
     events := events s ++ [(l, msg)]; stdout := stdout s |}.

Definition print (p : printed) (s : machine) : machine :=
  {| count := count s; phcounter := phcounter s; start_time := start_time s;
     now_time := now_time s; filename := filename s;
     exif_tags := exif_tags s; files := files s; events := events s;
     stdout := stdout s ++ [p] |}.

(** *** The program *)

Section Program.

Variable h : host.

Local Open Scope prog_scope.

(** A use of the variable [count]. *)
Definition read_count : M nat :=
  fun s =>
    match count s with
    | Some n => (Ret n, s)
    | None => (Raise (Exn "NameError" "name 'count' is not defined"), s)
    end.

(** The header row of line 33. *)
Definition header : list cell :=
  [Text "Row_Id"; Text "Timestamp"; Text "Latitude"; Text "Longitude";
   Text "Mag_x"; Text "Mag_y"; Text "Mag_z"; Text "Magnetic_grad";
   Text "Accel_x"; Text "Accel_y"; Text "Accel_z";
   Text "Pitch"; Text "Roll"; Text "Yaw"].

(** The rows of a CSV file that is opened for appending: those it holds, or
    none when it does not exist yet. *)
Definition lines_of (c : option content) : list (list cell) :=
  match c with
  | Some (Csv ls) => ls
  | _ => []
  end.

(** [create_csv_file(data_file)]: mode 'w' empties the file, then the header
    is written. *)
Definition create_csv_file (data_file : string) (opened : outcome unit)
  : M unit :=
  call opened ;;
  modify (write_file data_file (Csv [header])).

(** [add_csv_data(data_file, data)]: mode 'a', one more row at the end. *)
Definition add_csv_data (data_file : string) (data : list cell)
    (opened : outcome unit) : M unit :=
  call opened ;;
  modify (fun s =>
    write_file data_file (Csv (lines_of (files s !! data_file) ++ [data])) s).

(** [capture(camera, image)] during row [row]. *)
Definition capture (image : string) (row : nat) (t : tick) : M unit :=
  location <- call (t_capture_coordinates t) ;;
  let '(south, exif_latitude) := Exif.convert (fst location) in
  let '(west, exif_longitude) := Exif.convert (snd location) in
  modify (set_exif_tag "GPS.GPSLatitude" exif_latitude) ;;
  modify (set_exif_tag "GPS.GPSLatitudeRef" (if south then "S" else "N")) ;;
  modify (set_exif_tag "GPS.GPSLongitude" exif_longitude) ;;
  modify (set_exif_tag "GPS.GPSLongitudeRef" (if west then "W" else "E")) ;;
  call (t_camera t) ;;
  modify (fun s => write_file image (RawPhoto row (exif_tags s)) s).

(** The four reads of lines 121-142. *)
Definition read_sensors (t : tick) : outcome readings :=
  and_then (t_coordinates t) (fun loc =>
  and_then (t_compass t) (fun comp =>
  and_then (t_accelerometer t) (fun acc =>
  and_then (t_orientation t) (fun ori =>
  Ret {| location := loc; rawComp := comp; rawAcc := acc; orient := ori |})))).

(** The tuple [data] of lines 126-151. *)
Definition data_row (count : nat) (timestmp : Z) (r : readings) : list cell :=
  let rawCompX := round_n (x (rawComp r)) 3 in
  let rawCompY := round_n (y (rawComp r)) 3 in
  let rawCompZ := round_n (z (rawComp r)) 3 in
  let gradient :=
    round_n (sqrt h (rawCompX * rawCompX + rawCompY * rawCompY
                     + rawCompZ * rawCompZ)%Q) 3 in
  let rawAccX := round_n (x (rawAcc r)) 3 in
  let rawAccY := round_n (y (rawAcc r)) 3 in
  let rawAccZ := round_n (z (rawAcc r)) 3 in
  let pitch := round_n (pitch (orient r)) 2 in
  let roll := round_n (roll (orient r)) 2 in
  let yaw := round_n (yaw (orient r)) 2 in
  [Int count; Text (str_datetime h timestmp);
   Float (round_n (fst (location r)) 4); Float (round_n (snd (location r)) 4);
   Float rawCompX; Float rawCompY; Float rawCompZ; Float gradient;
   Float rawAccX; Float rawAccY; Float rawAccZ;
   Float pitch; Float roll; Float yaw].

(** The names of the two pictures of the capture numbered [ph]. *)
Definition photo_file (ph : nat) : string :=
  base_folder h ++ "/pic/photo_" ++ fmt_03d ph ++ ".jpg".

Definition ndvi_file (ph : nat) : string :=
  drop_last 3 (photo_file ph) ++ "ndvi.png".

(** Lines 158-170: the capture and the processing of the picture. *)
Definition take_photo (count : nat) (timestmp : Z) (t : tick) : M unit :=
  ph <- get phcounter ;;
  let image_file := photo_file ph in
  capture image_file count t ;;
  modify (set_phcounter (ph + 1)) ;;
  modify (log_event INFO ("Photo taken at " ++ str_datetime h timestmp)) ;;
  call (t_stretch t) ;;
  modify (write_file image_file (StretchedPhoto count)) ;;
  call (t_ndvi t) ;;
  modify (write_file (ndvi_file ph) (NdviMap count)).

(** Lines 118-153: the reads, the tuple, its print and its row in the log;
    the value is the [count] the row was numbered with. *)
Definition record_sample (t : tick) : M nat :=
  let timestmp := t_timestmp t in
  r <- call (read_sensors t) ;;
  count <- read_count ;;
  let data := data_row count timestmp r in
  modify (print (Tuple data)) ;;
  data_file <- get filename ;;
  add_csv_data data_file data (t_append t) ;;
  ret count.

(** One iteration of the recording cycle (lines 118-173). *)
Definition loop_body (t : tick) : M unit :=
  count <- record_sample t ;;
  sunlit <- call (t_sunlit t) ;;
  (if sunlit : bool then
     if (count mod 200 =? 0)%nat then take_photo count (t_timestmp t) t
     else ret tt
   else ret tt) ;;
  modify (set_count (Some (count + 1)%nat)) ;;
  modify (set_now_time (t_now t)).

(** [timedelta(minutes = m)], in microseconds. *)
Definition minutes (m : Z) : Z := (m * 60 * 1000000)%Z.

(** The [while] loop of line 116.  The [i]-th iteration meets the [i]-th
    tick of the environment; [None] when the fuel runs out first. *)
Fixpoint recording_cycle (env : nat -> tick) (fuel : nat) (i : nat)
    (s : machine) : option (outcome unit * machine) :=
  if (now_time s <? start_time s + minutes 175)%Z then
    match fuel with
    | O => None
    | S fuel' =>
        match loop_body (env i) s with
        | (Ret _, s') => recording_cycle env fuel' (S i) s'
        | (Raise e, s') => Some (Raise e, s')
        end
    end
  else Some (Ret tt, s).

(** Lines 95-113. *)
Definition prologue (b : boot) : M unit :=
  call (b_ephemeris b) ;;
  modify (set_count (Some 0%nat)) ;;
  modify (set_phcounter 0) ;;
  modify (set_start_time (b_start_time b)) ;;
  modify (set_now_time (b_now_time b)) ;;
  call (b_folders b) ;;
  let filetime := strftime h (b_filetime b) "%d_%b_%y_%H_%M_%S" in
  let filename :=
    base_folder h ++ "/log/" ++ filetime ++ "_recording_log.csv" in
  modify (set_filename filename) ;;
  create_csv_file filename (b_create b) ;;
  modify (print (Line ("Logging data started at "
                       ++ strftime h (b_started b) "%d %b %y %H:%M:%S"))).

(** The [except Exception as e] clause. *)
Definition handler (e : exn) : M unit :=
  modify (log_event ERROR (exn_class e ++ ": " ++ exn_message e)).

(** The [finally] clause. *)
Definition finally_block : M unit :=
  count <- read_count ;;
  (if (0 <? count)%nat then
     modify (print (Line ("Recorded measurements: "
                          ++ str_int (Z.of_nat count - 1))))
   else modify (print (Line "No data recorded"))) ;;
  modify (print (Line "Thank you")).

(** The state at process start, over the files that exist already. *)
Definition initial (fs0 : gmap string content) : machine :=
  {| count := None; phcounter := 0; start_time := 0; now_time := 0;
     filename := ""; exif_tags := ∅; files := fs0; events := [];
     stdout := [] |}.

(** A run that ended: how the [try] block ended, how the process ended
    ([Ret]: a clean exit, [Raise]: an uncaught exception) and the last
    state. *)
Record result : Type := {
  r_try : outcome unit;
  r_exit : outcome unit;
  r_final : machine
}.

(** The [except] and [finally] clauses after the [try] block ended with
    [r] in state [s]. *)
Definition finish (r : outcome unit) (s : machine) : result :=
  let s1 := match r with
            | Ret _ => s
            | Raise e => snd (handler e s)
            end in
  let '(x, s2) := finally_block s1 in
  {| r_try := r; r_exit := x; r_final := s2 |}.

(** The main program. *)
Definition main (fs0 : gmap string content) (b : boot) (env : nat -> tick)
    (fuel : nat) : option result :=
  match prologue b (initial fs0) with
  | (Raise e, s1) => Some (finish (Raise e) s1)
  | (Ret _, s1) =>
      match recording_cycle env fuel 0 s1 with
      | None => None
      | Some (r, s2) => Some (finish r s2)
      end
  end.

(** *** File names *)

(** The name of the log file that the prologue makes up. *)
Definition log_file (b : boot) : string :=
  base_folder h ++ "/log/" ++ strftime h (b_filetime b) "%d_%b_%y_%H_%M_%S"
    ++ "_recording_log.csv".

Lemma photo_file_inj (n m : nat) : photo_file n = photo_file m -> n = m.
Proof.
  unfold photo_file. intros H.
  apply String.app_inj in H. apply String.app_inj in H.
  apply append_inj_tail in H; [| reflexivity].
  apply fmt_03d_inj. exact (proj1 H).
Qed.

Lemma ndvi_file_eq (ph : nat) :
  ndvi_file ph = base_folder h ++ "/pic/photo_" ++ fmt_03d ph ++ ".ndvi.png".
Proof.
  unfold ndvi_file, photo_file.
  change ".jpg" with ("." ++ "jpg").
  rewrite <- !append_assoc.
  rewrite (drop_last_append _ "jpg").
  rewrite !append_assoc. reflexivity.
Qed.

Lemma ndvi_file_inj (n m : nat) : ndvi_file n = ndvi_file m -> n = m.
Proof.
  rewrite !ndvi_file_eq. intros H.
  apply String.app_inj in H. apply String.app_inj in H.
  apply append_inj_tail in H; [| reflexivity].
  apply fmt_03d_inj. exact (proj1 H).
Qed.

Lemma photo_ne_ndvi (n m : nat) : photo_file n <> ndvi_file m.
Proof.
  rewrite ndvi_file_eq. unfold photo_file. intros H.
  apply String.app_inj in H. apply String.app_inj in H.
  change ".ndvi.png" with (".ndvi" ++ ".png") in H.
  rewrite <- append_assoc in H.
  apply append_inj_tail in H; [| reflexivity].
  destruct H as [_ H]. discriminate H.
Qed.

Lemma log_ne_photo (b : boot) (n : nat) : log_file b <> photo_file n.
Proof.
  unfold log_file, photo_file. intros H.
  apply String.app_inj in H. discriminate H.
Qed.

Lemma log_ne_ndvi (b : boot) (n : nat) : log_file b <> ndvi_file n.
Proof.
  rewrite ndvi_file_eq. unfold log_file. intros H.
  apply String.app_inj in H. discriminate H.
Qed.

(** *** One iteration, step by step *)

(** The text of the event of line 161. *)
Definition photo_event (timestmp : Z) : level * string :=
  (INFO, "Photo taken at " ++ str_datetime h timestmp).

Lemma record_sample_spec (t : tick) (s s' : machine) (o : outcome nat)
    (n : nat) :
  count s = Some n ->
  record_sample t s = (o, s') ->
  count s' = Some n /\ phcounter s' = phcounter s
  /\ start_time s' = start_time s /\ now_time s' = now_time s
  /\ filename s' = filename s /\ events s' = events s
  /\ ((exists r, read_sensors t = Ret r /\ o = Ret n
                 /\ files s'
                    = <[filename s :=
                          Csv (lines_of (files s !! filename s)
                               ++ [data_row n (t_timestmp t) r])]> (files s))
      \/ ((exists e, o = Raise e) /\ files s' = files s)).
Proof.
  intros Hn H.
  unfold record_sample, add_csv_data, read_count, bind, call, modify, get,
    ret in H.
  destruct (read_sensors t) as [r | e].
  - cbn in H. rewrite Hn in H. cbn in H.
    destruct (t_append t) as [[] | e]; inversion H; subst; clear H; cbn.
    + repeat (split; [first [exact Hn | reflexivity] |]).
      left. exists r. repeat split.
    + repeat (split; [first [exact Hn | reflexivity] |]).
      right. split; [eexists; reflexivity | reflexivity].
  - inversion H; subst; clear H.
    repeat (split; [first [exact Hn | reflexivity] |]).
    right. split; [eexists; reflexivity | reflexivity].
Qed.

Lemma take_photo_spec (n : nat) (ts : Z) (t : tick) (s s' : machine)
    (o : outcome unit) :
  take_photo n ts t s = (o, s') ->
  count s' = count s /\ start_time s' = start_time s
  /\ now_time s' = now_time s /\ filename s' = filename s
  /\ (forall p, p <> photo_file (phcounter s) ->
                p <> ndvi_file (phcounter s) ->
                files s' !! p = files s !! p)
  /\ (o = Ret tt ->
      phcounter s' = (phcounter s + 1)%nat
      /\ events s' = (events s ++ [photo_event ts])%list
      /\ files s' !! photo_file (phcounter s) = Some (StretchedPhoto n)
      /\ files s' !! ndvi_file (phcounter s) = Some (NdviMap n))
  /\ (forall e, o = Raise e ->
      (phcounter s' = phcounter s /\ events s' = events s)
      \/ (phcounter s' = (phcounter s + 1)%nat
          /\ events s' = (events s ++ [photo_event ts])%list)).
Proof.
  intros H.
  pose proof (photo_ne_ndvi (phcounter s) (phcounter s)) as Hne.
  unfold take_photo, capture, bind, call, modify, get, ret in H.
  destruct (t_capture_coordinates t) as [loc | e1];
    [| inversion H; subst; clear H; cbn;
       repeat split; try discriminate; auto].
  destruct (Exif.convert loc.1) as [south lat].
  destruct (Exif.convert loc.2) as [west lon].
  cbn in H.
  destruct (t_camera t) as [[] | e2];
    [| inversion H; subst; clear H; cbn;
       repeat split; try discriminate; auto].
  cbn in H.
  destruct (t_stretch t) as [[] | e3]; cbn in H.
  - destruct (t_ndvi t) as [[] | e4]; inversion H; subst; clear H; cbn.
    + repeat split; try discriminate.
      * intros p Hp1 Hp2. rewrite !lookup_insert_ne by congruence. reflexivity.
      * rewrite lookup_insert_ne by congruence. apply lookup_insert_eq.
      * apply lookup_insert_eq.
    + repeat split; try discriminate.
      * intros p Hp1 Hp2. rewrite !lookup_insert_ne by congruence. reflexivity.
      * intros e _. right. split; reflexivity.
  - inversion H; subst; clear H; cbn.
    repeat split; try discriminate.
    + intros p Hp1 Hp2. rewrite !lookup_insert_ne by congruence. reflexivity.
    + intros e _. right. split; reflexivity.
Qed.

(** *** The state of a run *)

(** Whether iteration [i] passes the two tests of lines 156-157. *)
Definition gate (env : nat -> tick) (i : nat) : bool :=
  match t_sunlit (env i) with
  | Ret true => (i mod 200 =? 0)%nat
  | _ => false
  end.

(** The rows, among the first [n], during which a picture is taken. *)
Definition captures (env : nat -> tick) (n : nat) : list nat :=
  List.filter (gate env) (seq 0 n).

(** The row that iteration [i] writes, when its reads return. *)
Definition row_of (env : nat -> tick) (i : nat) : option (list cell) :=
  match read_sensors (env i) with
  | Ret r => Some (data_row i (t_timestmp (env i)) r)
  | Raise _ => None
  end.

(** The state at the top of iteration [n], all earlier ones completed. *)
Record running (b : boot) (env : nat -> tick) (n : nat) (s : machine)
  : Prop := {
  run_count : count s = Some n;
  run_filename : filename s = log_file b;
  run_start : start_time s = b_start_time b;
  run_phcounter : phcounter s = length (captures env n);
  run_log : exists rows,
      files s !! log_file b = Some (Csv (header :: rows))
      /\ map Some rows = map (row_of env) (seq 0 n);
  run_pics : forall k i, captures env n !! k = Some i ->
      files s !! photo_file k = Some (StretchedPhoto i)
      /\ files s !! ndvi_file k = Some (NdviMap i);
  run_events :
      events s = map (fun i => photo_event (t_timestmp (env i)))
                   (captures env n)
}.

(** The state after iteration [n] raised: what the completed iterations
    wrote is there, followed by whatever iteration [n] wrote before it
    raised. *)
Record stopped (b : boot) (env : nat -> tick) (n : nat) (s : machine)
  : Prop := {
  stop_count : count s = Some n;
  stop_log : exists rows extra,
      files s !! log_file b = Some (Csv (header :: rows ++ extra))
      /\ map Some rows = map (row_of env) (seq 0 n)
      /\ (extra = []
          \/ exists row, row_of env n = Some row /\ extra = [row]);
  stop_pics : forall k i, captures env n !! k = Some i ->
      files s !! photo_file k = Some (StretchedPhoto i)
      /\ files s !! ndvi_file k = Some (NdviMap i);
  stop_events : exists extra,
      events s = (map (fun i => photo_event (t_timestmp (env i)))
                    (captures env n) ++ extra)%list
      /\ (extra = [] \/ extra = [photo_event (t_timestmp (env n))])
}.

Lemma captures_S (env : nat -> tick) (n : nat) :
  captures env (S n)
  = (captures env n ++ (if gate env n then [n] else []))%list.
Proof.
  unfold captures. rewrite seq_S, List.filter_app. cbn [List.filter Nat.add].
  destruct (gate env n); reflexivity.
Qed.

(** Lines 156-170, for a sunlit test that returned [lit]. *)
Lemma gate_block_spec (n : nat) (t : tick) (lit : bool) (s s' : machine)
    (o : outcome unit) :
  (if lit then
     if (n mod 200 =? 0)%nat then take_photo n (t_timestmp t) t else ret tt
   else ret tt) s = (o, s') ->
  count s' = count s /\ start_time s' = start_time s
  /\ now_time s' = now_time s /\ filename s' = filename s
  /\ (forall p, p <> photo_file (phcounter s) ->
                p <> ndvi_file (phcounter s) ->
                files s' !! p = files s !! p)
  /\ (o = Ret tt ->
      if lit && (n mod 200 =? 0)%nat then
        phcounter s' = (phcounter s + 1)%nat
        /\ events s' = (events s ++ [photo_event (t_timestmp t)])%list
        /\ files s' !! photo_file (phcounter s) = Some (StretchedPhoto n)
        /\ files s' !! ndvi_file (phcounter s) = Some (NdviMap n)
      else s' = s)
  /\ (forall e, o = Raise e ->
      (phcounter s' = phcounter s /\ events s' = events s)
      \/ (phcounter s' = (phcounter s + 1)%nat
          /\ events s' = (events s ++ [photo_event (t_timestmp t)])%list)).
Proof.
  intros H.
  destruct lit; [destruct (n mod 200 =? 0)%nat |].
  - apply take_photo_spec in H. exact H.
  - inversion H; subst. repeat split; try discriminate; auto.
  - inversion H; subst. repeat split; try discriminate; auto.
Qed.

(** Writing the log and the pictures of capture number [ph] leaves the
    pictures of the captures before [ph] as they are. *)
Lemma earlier_pics (b : boot) (fs fs1 fs2 : gmap string content)
    (ph k : nat) (c1 c2 : content) :
  k < ph ->
  (forall p, p <> log_file b -> fs1 !! p = fs !! p) ->
  (forall p, p <> photo_file ph -> p <> ndvi_file ph -> fs2 !! p = fs1 !! p) ->
  fs !! photo_file k = Some c1 -> fs !! ndvi_file k = Some c2 ->
  fs2 !! photo_file k = Some c1 /\ fs2 !! ndvi_file k = Some c2.
Proof.
  intros Hlt H1 H2 Hp Hn.
  assert (A1 : photo_file k <> photo_file ph)
    by (intros Heq; apply photo_file_inj in Heq; lia).
  assert (A2 : photo_file k <> ndvi_file ph) by apply photo_ne_ndvi.
  assert (A3 : ndvi_file k <> photo_file ph)
    by (intros Heq; symmetry in Heq; exact (photo_ne_ndvi _ _ Heq)).
  assert (A4 : ndvi_file k <> ndvi_file ph)
    by (intros Heq; apply ndvi_file_inj in Heq; lia).
  rewrite (H2 _ A1 A2), (H2 _ A3 A4).
  rewrite !H1; [split; assumption | |].
  - intros Heq. symmetry in Heq. exact (log_ne_ndvi _ _ Heq).
  - intros Heq. symmetry in Heq. exact (log_ne_photo _ _ Heq).
Qed.

(** An iteration that completes leads from the top of iteration [n] to the
    top of iteration [n + 1]. *)
Lemma loop_body_ret (b : boot) (env : nat -> tick) (n : nat)
    (s s' : machine) :
  running b env n s ->
  loop_body (env n) s = (Ret tt, s') ->
  running b env (S n) s' /\ now_time s' = t_now (env n).
Proof.
  intros R H. unfold loop_body in H. unfold bind at 1 in H.
  destruct (record_sample (env n) s) as [o1 s1] eqn:H1.
  destruct (record_sample_spec _ _ _ _ _ (run_count _ _ _ _ R) H1)
    as (C1 & P1 & S1 & N1 & F1 & E1 & D1).
  destruct o1 as [c | e]; [| discriminate H].
  destruct D1 as [(r & Hr & Hc & Hf) | [[e He] _]]; [| discriminate He].
  injection Hc as ->.
  unfold bind at 1 in H. unfold call at 1 in H.
  destruct (t_sunlit (env n)) as [lit | e] eqn:Hlit; [| discriminate H].
  unfold bind at 1 in H.
  match type of H with
  | match ?blk s1 with _ => _ end = _ =>
      destruct (blk s1) as [o2 s2] eqn:H2
  end.
  apply gate_block_spec in H2.
  destruct H2 as (C2 & S2 & N2 & F2 & K2 & G2 & _).
  destruct o2 as [[] | e]; [| discriminate H].
  specialize (G2 eq_refl).
  unfold bind, modify in H. inversion H; subst s'; clear H.
  assert (Hgate : gate env n = lit && (n mod 200 =? 0)%nat).
  { unfold gate. rewrite Hlit. destruct lit; reflexivity. }
  destruct R as [Rc Rf Rs Rp [rows [Rl Rr]] Rpics Rev].
  rewrite Rf in *.
  split; [| reflexivity].
  split; unfold set_now_time, set_count;
    cbn [count phcounter start_time now_time filename files events].
  - f_equal. lia.
  - congruence.
  - congruence.
  - rewrite captures_S, length_app, Hgate.
    destruct (lit && (n mod 200 =? 0)%nat); cbn.
    + destruct G2 as (-> & _). lia.
    + subst s2. lia.
  - exists (rows ++ [data_row n (t_timestmp (env n)) r])%list.
    split.
    + assert (Hlog : files s1 !! log_file b
               = Some (Csv (header :: rows
                            ++ [data_row n (t_timestmp (env n)) r]))).
      { rewrite Hf, lookup_insert_eq, Rl. reflexivity. }
      destruct (lit && (n mod 200 =? 0)%nat).
      * rewrite K2; [exact Hlog | apply log_ne_photo | apply log_ne_ndvi].
      * subst s2. exact Hlog.
    + assert (Hrow : row_of env n
                     = Some (data_row n (t_timestmp (env n)) r))
        by (unfold row_of; rewrite Hr; reflexivity).
      rewrite seq_S, !map_app, Rr. cbn [map Nat.add]. rewrite Hrow.
      reflexivity.
  - intros k i Hk. rewrite captures_S, Hgate in Hk.
    assert (Hold : forall k' i', captures env n !! k' = Some i' ->
              files s2 !! photo_file k' = Some (StretchedPhoto i')
              /\ files s2 !! ndvi_file k' = Some (NdviMap i')).
    { intros k' i' Hk'. pose proof (lookup_lt_Some _ _ _ Hk') as Hlt.
      destruct (Rpics k' i' Hk') as [Hp Hn].
      rewrite <- Rp, <- P1 in Hlt.
      apply (earlier_pics b (files s) (files s1) (files s2) (phcounter s1));
        try assumption.
      intros p Hp'. rewrite Hf. apply lookup_insert_ne. congruence. }
    destruct (lit && (n mod 200 =? 0)%nat).
    + apply lookup_app_Some in Hk. destruct Hk as [Hk | [Hge Hk]].
      * apply Hold. exact Hk.
      * apply list_lookup_singleton_Some in Hk. destruct Hk as [Hk0 <-].
        assert (k = phcounter s1) by (rewrite P1, Rp; lia). subst k.
        destruct G2 as (_ & _ & Hp & Hn). split; assumption.
    + rewrite app_nil_r in Hk. apply Hold. exact Hk.
  - rewrite captures_S, map_app, Hgate.
    destruct (lit && (n mod 200 =? 0)%nat); cbn.
    + destruct G2 as (_ & -> & _). rewrite E1, Rev. reflexivity.
    + subst s2. rewrite app_nil_r, E1, Rev. reflexivity.
Qed.

(** An iteration that raises stops the cycle in a state that holds what
    the completed iterations wrote. *)
Lemma loop_body_raise (b : boot) (env : nat -> tick) (n : nat)
    (s s' : machine) (e : exn) :
  running b env n s ->
  loop_body (env n) s = (Raise e, s') ->
  stopped b env n s'.
Proof.
  intros R H. unfold loop_body in H. unfold bind at 1 in H.
  destruct (record_sample (env n) s) as [o1 s1] eqn:H1.
  destruct (record_sample_spec _ _ _ _ _ (run_count _ _ _ _ R) H1)
    as (C1 & P1 & S1 & N1 & F1 & E1 & D1).
  destruct R as [Rc Rf Rs Rp [rows [Rl Rr]] Rpics Rev].
  rewrite Rf in *.
  destruct o1 as [c | e1].
  - destruct D1 as [(r & Hr & Hc & Hf) | [[e' He] _]]; [| discriminate He].
    injection Hc as ->.
    assert (Hrow : row_of env n
                   = Some (data_row n (t_timestmp (env n)) r))
      by (unfold row_of; rewrite Hr; reflexivity).
    assert (Hlog : files s1 !! log_file b
               = Some (Csv (header :: rows
                            ++ [data_row n (t_timestmp (env n)) r]))).
    { rewrite Hf, lookup_insert_eq, Rl. reflexivity. }
    assert (Hframe : forall p, p <> log_file b ->
                       files s1 !! p = files s !! p).
    { intros p Hp. rewrite Hf. apply lookup_insert_ne. congruence. }
    unfold bind at 1 in H. unfold call at 1 in H.
    destruct (t_sunlit (env n)) as [lit | e2] eqn:Hlit.
    + unfold bind at 1 in H.
      match type of H with
      | match ?blk s1 with _ => _ end = _ =>
          destruct (blk s1) as [o2 s2] eqn:H2
      end.
      apply gate_block_spec in H2.
      destruct H2 as (C2 & S2 & N2 & F2 & K2 & _ & G3).
      destruct o2 as [[] | e3];
        [unfold bind, modify in H; discriminate H |].
      inversion H; subst s' e3; clear H.
      specialize (G3 e eq_refl).
      split.
      * congruence.
      * eexists rows, _. split; [| split; [exact Rr |]].
        -- rewrite K2; [exact Hlog | apply log_ne_photo | apply log_ne_ndvi].
        -- right. eexists. split; [exact Hrow | reflexivity].
      * intros k i Hk. pose proof (lookup_lt_Some _ _ _ Hk) as Hlt.
        destruct (Rpics k i Hk) as [Hp Hn].
        rewrite <- Rp, <- P1 in Hlt.
        apply (earlier_pics b (files s) (files s1) (files s2)
                 (phcounter s1)); assumption.
      * destruct G3 as [[_ Hev] | [_ Hev]]; rewrite Hev, E1, Rev.
        -- exists []. rewrite app_nil_r. split; [reflexivity | left; reflexivity].
        -- eexists. split; [reflexivity | right; reflexivity].
    + inversion H; subst s' e2; clear H.
      split.
      * exact C1.
      * eexists rows, _. split; [exact Hlog | split; [exact Rr |]].
        right. eexists. split; [exact Hrow | reflexivity].
      * intros k i Hk. destruct (Rpics k i Hk) as [Hp Hn].
        rewrite !Hframe; [split; assumption | |].
        -- intros Heq. symmetry in Heq. exact (log_ne_ndvi _ _ Heq).
        -- intros Heq. symmetry in Heq. exact (log_ne_photo _ _ Heq).
      * exists []. rewrite app_nil_r, E1. split; [exact Rev | left; reflexivity].
  - inversion H; subst s' e1; clear H.
    destruct D1 as [(r & _ & Hc & _) | [_ Hf]]; [discriminate Hc |].
    split.
    + exact C1.
    + exists rows, []. rewrite app_nil_r, Hf.
      split; [exact Rl | split; [exact Rr | left; reflexivity]].
    + intros k i Hk. rewrite Hf. apply Rpics. exact Hk.
    + exists []. rewrite app_nil_r, E1. split; [exact Rev | left; reflexivity].
Qed.

(** *** The cycle and the whole run *)

(** The instant at which the cycle stops: line 116. *)
Definition deadline (b : boot) : Z := (b_start_time b + minutes 175)%Z.

(** The value of [now_time] at the top of iteration [i]. *)
Definition clock (b : boot) (env : nat -> tick) (i : nat) : Z :=
  match i with
  | O => b_now_time b
  | S j => t_now (env j)
  end.

(** The first cell of a row, when it is an integer. *)
Definition row_id (row : list cell) : option nat :=
  match row with
  | Int n :: _ => Some n
  | _ => None
  end.

(** The line that the [except] clause writes to the event log. *)
Definition error_event (e : exn) : level * string :=
  (ERROR, exn_class e ++ ": " ++ exn_message e).

(** The report of the [finally] clause for a bound [count]. *)
Definition report (n : nat) : list printed :=
  [Line (if (0 <? n)%nat
         then "Recorded measurements: " ++ str_int (Z.of_nat n - 1)
         else "No data recorded");
   Line "Thank you"].

Lemma prologue_ret (fs0 : gmap string content) (b : boot)
    (env : nat -> tick) (s1 : machine) :
  prologue b (initial fs0) = (Ret tt, s1) ->
  running b env 0 s1 /\ now_time s1 = b_now_time b.
Proof.
  unfold prologue, create_csv_file, bind, call, modify. intros H.
  destruct (b_ephemeris b) as [[] | e]; [| discriminate H].
  destruct (b_folders b) as [[] | e]; [| discriminate H].
  destruct (b_create b) as [[] | e]; [| discriminate H].
  inversion H; subst s1; clear H. split; [| reflexivity].
  split; cbn; try reflexivity.
  - exists []. split; [apply lookup_insert_eq | reflexivity].
  - intros k i Hk. discriminate Hk.
Qed.

(** Before [count] is bound only the loading of the ephemeris can raise. *)
Lemma prologue_raise (fs0 : gmap string content) (b : boot) (e : exn)
    (s1 : machine) :
  prologue b (initial fs0) = (Raise e, s1) ->
  (count s1 = None /\ b_ephemeris b = Raise e /\ stdout s1 = [])
  \/ (count s1 = Some 0%nat /\ stdout s1 = []).
Proof.
  unfold prologue, create_csv_file, bind, call, modify. intros H.
  destruct (b_ephemeris b) as [[] | e1].
  - right. destruct (b_folders b) as [[] | e2].
    + destruct (b_create b) as [[] | e3]; inversion H; subst; split; reflexivity.
    + inversion H; subst; split; reflexivity.
  - left. inversion H; subst. repeat split.
Qed.

Lemma recording_cycle_spec (b : boot) (env : nat -> tick) (fuel : nat) :
  forall (n : nat) (s : machine) (r : outcome unit) (s' : machine),
  running b env n s -> now_time s = clock b env n ->
  recording_cycle env fuel n s = Some (r, s') ->
  exists N, n <= N
    /\ (forall i, n <= i < N -> (clock b env i < deadline b)%Z)
    /\ match r with
       | Ret _ => running b env N s' /\ (deadline b <= clock b env N)%Z
       | Raise e =>
           stopped b env N s' /\ (clock b env N < deadline b)%Z
           /\ exists s0, running b env N s0
                         /\ loop_body (env N) s0 = (Raise e, s')
       end.
Proof.
  induction fuel as [| fuel IH]; intros n s r s' R Hnow H; cbn in H;
    rewrite (run_start _ _ _ _ R), Hnow in H; fold (deadline b) in H;
    destruct (clock b env n <? deadline b)%Z eqn:Hlt;
    try discriminate H.
  - inversion H; subst. exists n. split; [lia |]. split; [intros; lia |].
    split; [exact R | lia].
  - destruct (loop_body (env n) s) as [[[] | e] s1] eqn:Hbody.
    + destruct (loop_body_ret b env n s s1 R Hbody) as [R1 Hnow1].
      destruct (IH (S n) s1 r s' R1 Hnow1 H) as (N & HN & Hbefore & Hend).
      exists N. split; [lia |]. split; [| exact Hend].
      intros i Hi. destruct (decide (i = n)) as [-> | Hne];
        [lia | apply Hbefore; lia].
    + inversion H; subst. exists n. split; [lia |]. split; [intros; lia |].
      split; [exact (loop_body_raise b env n s s' e R Hbody) |].
      split; [lia |]. exists s. split; assumption.
  - inversion H; subst. exists n. split; [lia |]. split; [intros; lia |].
    split; [exact R | lia].
Qed.

(** More fuel does not change the result of a cycle that ended. *)
Lemma recording_cycle_more_fuel (env : nat -> tick) (fuel : nat) :
  forall (n : nat) (s : machine) (res : outcome unit * machine) (k : nat),
  recording_cycle env fuel n s = Some res ->
  recording_cycle env (fuel + k) n s = Some res.
Proof.
  induction fuel as [| fuel IH]; intros n s res k H; cbn in H.
  - destruct k as [| k]; cbn;
      destruct (now_time s <? start_time s + minutes 175)%Z;
      solve [discriminate H | exact H].
  - cbn. destruct (now_time s <? start_time s + minutes 175)%Z; [| exact H].
    destruct (loop_body (env n) s) as [[[] | e] s1]; [| exact H].
    apply IH. exact H.
Qed.

(** With a clock that advances, the cycle ends: after the first iteration
    the distance to the deadline bounds the iterations left. *)
Lemma recording_cycle_ends (b : boot) (env : nat -> tick)
    (Hclock : forall i, (t_now (env i) < t_now (env (S i)))%Z)
    (fuel : nat) :
  forall (n : nat) (s : machine),
  running b env (S n) s -> now_time s = t_now (env n) ->
  (deadline b - t_now (env n) <= Z.of_nat fuel)%Z ->
  exists res, recording_cycle env fuel (S n) s = Some res.
Proof.
  induction fuel as [| fuel IH]; intros n s R Hnow Hfuel; cbn;
    rewrite (run_start _ _ _ _ R), Hnow; fold (deadline b);
    destruct (t_now (env n) <? deadline b)%Z eqn:Hlt;
    try (eexists; reflexivity).
  - lia.
  - destruct (loop_body (env (S n)) s) as [[[] | e] s1] eqn:Hbody;
      [| eexists; reflexivity].
    destruct (loop_body_ret b env (S n) s s1 R Hbody) as [R1 Hnow1].
    apply (IH (S n) s1 R1 Hnow1).
    specialize (Hclock n). lia.
Qed.

Lemma recording_cycle_ends_from_start (b : boot) (env : nat -> tick)
    (Hclock : forall i, (t_now (env i) < t_now (env (S i)))%Z)
    (s : machine) :
  running b env 0 s ->
  exists fuel res, recording_cycle env fuel 0 s = Some res.
Proof.
  intros R.
  exists (S (Z.to_nat (deadline b - t_now (env 0%nat)))). cbn.
  destruct (now_time s <? start_time s + minutes 175)%Z;
    [| eexists; reflexivity].
  destruct (loop_body (env 0%nat) s) as [[[] | e] s1] eqn:Hbody;
    [| eexists; reflexivity].
  destruct (loop_body_ret b env 0 s s1 R Hbody) as [R1 Hnow1].
  apply (recording_cycle_ends b env Hclock _ 0 s1 R1 Hnow1). lia.
Qed.

(** The [except] and [finally] clauses when [count] is bound: the error,
    if any, is logged, the report is printed, and the process exits. *)
Lemma finish_bound (r : outcome unit) (s : machine) (n : nat) :
  count s = Some n ->
  r_try (finish r s) = r
  /\ r_exit (finish r s) = Ret tt
  /\ count (r_final (finish r s)) = Some n
  /\ phcounter (r_final (finish r s)) = phcounter s
  /\ files (r_final (finish r s)) = files s
  /\ events (r_final (finish r s))
     = (events s ++ match r with
                    | Ret _ => []
                    | Raise e => [error_event e]
                    end)%list
  /\ stdout (r_final (finish r s)) = (stdout s ++ report n)%list.
Proof.
  intros Hn. unfold finish, finally_block, read_count, handler, bind, modify.
  unfold report. destruct s; cbn in Hn; subst.
  destruct n as [| n]; destruct r as [[] | e]; cbn;
    rewrite <- ?app_assoc, ?app_nil_r; repeat split.
Qed.


Lemma row_of_shape (env : nat -> tick) (i : nat) (row : list cell) :
  row_of env i = Some row -> row_id row = Some i /\ length row = 14%nat.
Proof.
  unfold row_of. destruct (read_sensors (env i)) as [r | e]; [| discriminate].
  intros H. injection H as <-. split; reflexivity.
Qed.

Lemma rows_shape (env : nat -> tick) (rows : list (list cell)) :
  forall (start len : nat),
  map Some rows = map (row_of env) (seq start len) ->
  length rows = len
  /\ map row_id rows = map Some (seq start len)
  /\ Forall (fun row => length row = 14%nat) rows.
Proof.
  induction rows as [| row rows IH]; intros start len H;
    destruct len as [| len]; try discriminate H.
  - repeat split. constructor.
  - cbn in H. injection H as Hrow Hrest. symmetry in Hrow.
    destruct (row_of_shape env start row Hrow) as [Hid Hlen].
    destruct (IH (S start) len Hrest) as (IH1 & IH2 & IH3).
    cbn. rewrite IH1, IH2, Hid. repeat split. constructor; assumption.
Qed.

Lemma finish_try (r : outcome unit) (s : machine) : r_try (finish r s) = r.
Proof. unfold finish. destruct (finally_block _). reflexivity. Qed.

(** A run whose [try] block ended without an exception. *)
Lemma main_normal (fs0 : gmap string content) (b : boot)
    (env : nat -> tick) (fuel : nat) (res : result) :
  main fs0 b env fuel = Some res -> r_try res = Ret tt ->
  exists N s2, res = finish (Ret tt) s2 /\ running b env N s2
    /\ (deadline b <= clock b env N)%Z
    /\ (forall i, i < N -> (clock b env i < deadline b)%Z).
Proof.
  unfold main. intros H Hok.
  destruct (prologue b (initial fs0)) as [[[] | e] s1] eqn:Hpro.
  - destruct (prologue_ret fs0 b env s1 Hpro) as [R Hnow].
    destruct (recording_cycle env fuel 0 s1) as [[r s2] |] eqn:Hcyc;
      [| discriminate H].
    injection H as <-. rewrite finish_try in Hok. subst r.
    destruct (recording_cycle_spec b env fuel 0 s1 _ s2 R Hnow Hcyc)
      as (N & _ & Hbefore & R2 & Hend).
    exists N, s2. split; [reflexivity |]. split; [exact R2 |].
    split; [exact Hend |]. intros i Hi. apply Hbefore. lia.
  - injection H as <-. rewrite finish_try in Hok. discriminate Hok.
Qed.


(** With a clock that advances, the program ends. *)
Lemma main_ends (fs0 : gmap string content) (b : boot) (env : nat -> tick)
    (Hclock : forall i, (t_now (env i) < t_now (env (S i)))%Z) :
  exists fuel res, main fs0 b env fuel = Some res
    /\ forall k, main fs0 b env (fuel + k) = Some res.
Proof.
  unfold main.
  destruct (prologue b (initial fs0)) as [[[] | e] s1] eqn:Hpro.
  - destruct (prologue_ret fs0 b env s1 Hpro) as [R Hnow].
    destruct (recording_cycle_ends_from_start b env Hclock s1 R)
      as (fuel & [r s2] & Hcyc).
    exists fuel, (finish r s2). rewrite Hcyc. split; [reflexivity |].
    intros k. rewrite (recording_cycle_more_fuel env fuel 0 s1 _ k Hcyc).
    reflexivity.
  - exists 0%nat, (finish (Raise e) s1). split; [reflexivity |].
    intros k. reflexivity.
Qed.

Lemma finish_count (r : outcome unit) (s : machine) :
  count (r_final (finish r s)) = count s.
Proof.
  destruct (count s) as [n |] eqn:Hn.
  - destruct (finish_bound r s n Hn) as (_ & _ & H & _). rewrite H. reflexivity.
  - unfold finish, finally_block, read_count, handler, bind, modify.
    destruct s; cbn in Hn; subst. destruct r as [[] | e]; reflexivity.
Qed.

Lemma main_finish (fs0 : gmap string content) (b : boot)
    (env : nat -> tick) (fuel : nat) (res : result) :
  main fs0 b env fuel = Some res -> exists r s2, res = finish r s2.
Proof.
  unfold main. intros H.
  destruct (prologue b (initial fs0)) as [[[] | e] s1].
  - destruct (recording_cycle env fuel 0 s1) as [[r s2] |];
      [| discriminate H].
    injection H as <-. eexists _, _. reflexivity.
  - injection H as <-. eexists _, _. reflexivity.
Qed.

Lemma filter_none (l : list nat) : List.filter (fun _ => false) l = [].
Proof. induction l as [| a l IH]; [reflexivity | exact IH]. Qed.

Lemma captures_sunlit (env : nat -> tick) (n : nat) :
  (forall i, i < n -> t_sunlit (env i) = Ret true) ->
  captures env n = List.filter (fun i => (i mod 200 =? 0)%nat) (seq 0 n).
Proof.
  intros Hlit. apply List.filter_ext_in. intros i Hi.
  apply in_seq in Hi. unfold gate. rewrite Hlit by lia. reflexivity.
Qed.

Lemma captures_dark (env : nat -> tick) (n : nat) :
  (forall i, i < n -> t_sunlit (env i) = Ret false) ->
  captures env n = [].
Proof.
  intros Hlit. rewrite <- (filter_none (seq 0 n)).
  apply List.filter_ext_in. intros i Hi.
  apply in_seq in Hi. unfold gate. rewrite Hlit by lia. reflexivity.
Qed.

Lemma captures_In (env : nat -> tick) (n i : nat) :
  In i (captures env n)
  <-> i < n /\ t_sunlit (env i) = Ret true /\ i mod 200 = 0%nat.
Proof.
  unfold captures, gate. rewrite filter_In, in_seq. split.
  - intros [Hi Hg]. split; [lia |].
    destruct (t_sunlit (env i)) as [[] | e]; try discriminate Hg.
    split; [reflexivity | apply Nat.eqb_eq; exact Hg].
  - intros (Hi & Hlit & Hmod). split; [lia |].
    rewrite Hlit. apply Nat.eqb_eq. exact Hmod.
Qed.

(** *** The properties of the run *)

(** C9. In a run whose cycle ended without an exception after [N]
    iterations, the log holds [N + 1] lines: the header of 14 columns and
    then the rows of the iterations 0, ..., [N - 1] in that order, each of 14
    fields, with the first fields 0, ..., [N - 1]. *)
Theorem log_of_successful_run (fs0 : gmap string content) (b : boot)
    (env : nat -> tick) (fuel : nat) (res : result) (N : nat)
    (Hrun : main fs0 b env fuel = Some res)
    (Hok : r_try res = Ret tt)
    (HN : count (r_final res) = Some N) :
  exists rows : list (list cell),
    files (r_final res) !! log_file b = Some (Csv (header :: rows))
    /\ length (header :: rows) = (N + 1)%nat
    /\ length header = 14%nat
    /\ map Some rows = map (row_of env) (seq 0 N)
    /\ map row_id rows = map Some (seq 0 N)
    /\ Forall (fun row => length row = 14%nat) rows.
Proof.
  destruct (main_normal fs0 b env fuel res Hrun Hok)
    as (N' & s2 & -> & R & _ & _).
  destruct (finish_bound (Ret tt) s2 N' (run_count _ _ _ _ R))
    as (_ & _ & Hc & _ & Hf & _).
  rewrite Hc in HN. injection HN as ->. rewrite Hf.
  destruct (run_log _ _ _ _ R) as (rows & Hlog & Hrows).
  destruct (rows_shape env rows 0 N Hrows) as (Hlen & Hids & Hall).
  exists rows. split; [exact Hlog |].
  split; [cbn [length]; lia |]. split; [reflexivity |].
  split; [exact Hrows |]. split; [exact Hids | exact Hall].
Qed.

(** C2. In a run whose cycle ended without an exception after [N]
    iterations, the pictures are those of the rows [i < N] at which the
    sunlit test returned true and [i mod 200 = 0], and of no other row: the
    photo counter is their number, the event log has one line for each, and
    the [k]-th of them is in the files numbered [k].  A run of 401
    iterations that is sunlit throughout takes exactly the three pictures of
    rows 0, 200 and 400; a run that is never sunlit takes none. *)
Theorem capture_gate (fs0 : gmap string content) (b : boot)
    (env : nat -> tick) (fuel : nat) (res : result) (N : nat)
    (Hrun : main fs0 b env fuel = Some res)
    (Hok : r_try res = Ret tt)
    (HN : count (r_final res) = Some N) :
  phcounter (r_final res) = length (captures env N)
  /\ (forall i, In i (captures env N)
               <-> i < N /\ t_sunlit (env i) = Ret true
                   /\ i mod 200 = 0%nat)
  /\ events (r_final res)
     = map (fun i => photo_event (t_timestmp (env i))) (captures env N)
  /\ (forall k i, captures env N !! k = Some i ->
        files (r_final res) !! photo_file k = Some (StretchedPhoto i)
        /\ files (r_final res) !! ndvi_file k = Some (NdviMap i))
  /\ (N = 401%nat -> (forall i, i < N -> t_sunlit (env i) = Ret true) ->
      captures env N = [0; 200; 400]%nat
      /\ phcounter (r_final res) = 3%nat)
  /\ ((forall i, i < N -> t_sunlit (env i) = Ret false) ->
      captures env N = [] /\ phcounter (r_final res) = 0%nat).
Proof.
  destruct (main_normal fs0 b env fuel res Hrun Hok)
    as (N' & s2 & -> & R & _ & _).
  destruct (finish_bound (Ret tt) s2 N' (run_count _ _ _ _ R))
    as (_ & _ & Hc & Hp & Hf & He & _).
  rewrite Hc in HN. injection HN as ->.
  rewrite Hp, Hf, He, app_nil_r, (run_phcounter _ _ _ _ R).
  split; [reflexivity |]. split; [apply captures_In |].
  split; [exact (run_events _ _ _ _ R) |].
  split; [exact (run_pics _ _ _ _ R) |].
  split.
  - intros -> Hlit. rewrite (captures_sunlit env 401 Hlit).
    split; reflexivity.
  - intros Hlit. rewrite (captures_dark env N Hlit). split; reflexivity.
Qed.

(** C8. With a clock whose readings advance, the program ends, and more
    fuel gives the same run.  When the cycle ends without an exception after
    [N] iterations, the reading at the top of each of them was before the
    deadline of 175 minutes and the reading at the top of iteration [N] was
    not: the cycle stops at the first test that fails.  A run that ends with
    [count = 0] exits cleanly and its last two lines of output are
    "No data recorded" and "Thank you". *)
Theorem mission_terminates (fs0 : gmap string content) (b : boot)
    (env : nat -> tick)
    (Hclock : forall i, (t_now (env i) < t_now (env (S i)))%Z) :
  exists (fuel : nat) (res : result),
    main fs0 b env fuel = Some res
    /\ (forall k, main fs0 b env (fuel + k) = Some res)
    /\ (r_try res = Ret tt ->
        exists N, count (r_final res) = Some N
          /\ (deadline b <= clock b env N)%Z
          /\ (forall i, i < N -> (clock b env i < deadline b)%Z))
    /\ (count (r_final res) = Some 0%nat ->
        r_exit res = Ret tt
        /\ exists out, stdout (r_final res)
                       = (out ++ [Line "No data recorded";
                                  Line "Thank you"])%list).
Proof.
  destruct (main_ends fs0 b env Hclock) as (fuel & res & Hrun & Hmore).
  exists fuel, res. split; [exact Hrun |]. split; [exact Hmore |]. split.
  - intros Hok.
    destruct (main_normal fs0 b env fuel res Hrun Hok)
      as (N & s2 & -> & R & Hend & Hbefore).
    exists N. rewrite finish_count.
    split; [exact (run_count _ _ _ _ R) |]. split; assumption.
  - intros Hzero.
    destruct (main_finish fs0 b env fuel res Hrun) as (r & s2 & ->).
    rewrite finish_count in Hzero.
    destruct (finish_bound r s2 0 Hzero) as (_ & Hexit & _ & _ & _ & _ & Hout).
    split; [exact Hexit |]. exists (stdout s2). exact Hout.
Qed.


(** *** Further properties of the capture and of the run *)

(** X5. The two files of a capture have names of their own: captures with
    different numbers have different photo names and different NDVI names,
    whatever the numbers (also beyond 999), no photo name is an NDVI name,
    and the NDVI name is the photo name with [jpg] replaced by [ndvi.png]. *)
Theorem picture_names_distinct (n m : nat) :
  (photo_file n = photo_file m -> n = m)
  /\ (ndvi_file n = ndvi_file m -> n = m)
  /\ photo_file n <> ndvi_file m
  /\ ndvi_file n
     = base_folder h ++ "/pic/photo_" ++ fmt_03d n ++ ".ndvi.png".
Proof.
  split; [apply photo_file_inj |]. split; [apply ndvi_file_inj |].
  split; [apply photo_ne_ndvi | apply ndvi_file_eq].
Qed.

Lemma convert_pair (a : Q) :
  Exif.convert a = (Qltb a 0, snd (Exif.convert a)).
Proof. rewrite Exif.convert_eq. reflexivity. Qed.


(** X7. A failure while the picture is processed comes after the capture:
    the photo counter has advanced and the event of the capture is in the
    event log.  The NDVI file of the capture is not written.  The photo
    file holds the raw picture when the failure is in the stretch, and the
    stretched picture when the failure is in the NDVI part. *)
Theorem processing_failure_keeps_capture (n : nat) (ts : Z) (t : tick)
    (s : machine) (loc : Q * Q) (e : exn)
    (Hloc : t_capture_coordinates t = Ret loc)
    (Hcam : t_camera t = Ret tt)
    (Hfail : t_stretch t = Raise e
             \/ (t_stretch t = Ret tt /\ t_ndvi t = Raise e)) :
  let s' := snd (take_photo n ts t s) in
  fst (take_photo n ts t s) = Raise e
  /\ phcounter s' = (phcounter s + 1)%nat
  /\ events s' = (events s ++ [photo_event ts])%list
  /\ files s' !! ndvi_file (phcounter s)
     = files s !! ndvi_file (phcounter s)
  /\ files s' !! photo_file (phcounter s)
     = Some (match t_stretch t with
             | Raise _ => RawPhoto n (exif_tags s')
             | Ret _ => StretchedPhoto n
             end).
Proof.
  pose proof (photo_ne_ndvi (phcounter s) (phcounter s)) as Hne.
  unfold take_photo, capture, bind, call, modify, get. rewrite Hloc.
  rewrite (convert_pair (fst loc)), (convert_pair (snd loc)). cbn.
  rewrite Hcam. cbn.
  destruct Hfail as [Hs | [Hs Hn]]; rewrite Hs; cbn; [| rewrite Hn; cbn];
    (split; [reflexivity |]); (split; [reflexivity |]);
    (split; [reflexivity |]);
    (split; [rewrite !lookup_insert_ne by congruence; reflexivity |]);
    apply lookup_insert_eq.
Qed.

(** How the prologue ends, by the first of its calls that raises. *)
Lemma prologue_cases (fs0 : gmap string content) (b : boot) :
  let o := fst (prologue b (initial fs0)) in
  let s1 := snd (prologue b (initial fs0)) in
  match b_ephemeris b with
  | Raise e =>
      o = Raise e /\ count s1 = None /\ files s1 = fs0
      /\ events s1 = [] /\ stdout s1 = []
  | Ret _ =>
      match b_folders b with
      | Raise e =>
          o = Raise e /\ count s1 = Some 0%nat /\ files s1 = fs0
          /\ events s1 = [] /\ stdout s1 = []
      | Ret _ =>
          match b_create b with
          | Raise e =>
              o = Raise e /\ count s1 = Some 0%nat /\ files s1 = fs0
              /\ events s1 = [] /\ stdout s1 = []
          | Ret _ =>
              o = Ret tt /\ count s1 = Some 0%nat
              /\ filename s1 = log_file b
              /\ files s1 = <[log_file b := Csv [header]]> fs0
              /\ events s1 = []
              /\ stdout s1
                 = [Line ("Logging data started at "
                          ++ strftime h (b_started b) "%d %b %y %H:%M:%S")]
          end
      end
  end.
Proof.
  unfold prologue, create_csv_file, bind, call, modify.
  destruct (b_ephemeris b) as [[] | e1]; [| repeat split].
  destruct (b_folders b) as [[] | e2]; [| repeat split].
  destruct (b_create b) as [[] | e3]; repeat split.
Qed.





Lemma captures_bound (env : nat -> tick) (n : nat) :
  length (captures env n) <= (n + 199) / 200.
Proof.
  induction n as [| n IH]; [cbn; lia |].
  rewrite captures_S, length_app.
  pose proof (Nat.div_mod_eq n 200) as D1.
  pose proof (Nat.mod_upper_bound n 200 ltac:(discriminate)) as D2.
  pose proof (Nat.div_mod_eq (n + 199) 200) as D3.
  pose proof (Nat.mod_upper_bound (n + 199) 200 ltac:(discriminate)) as D4.
  pose proof (Nat.div_mod_eq (S n + 199) 200) as D5.
  pose proof (Nat.mod_upper_bound (S n + 199) 200 ltac:(discriminate)) as D6.
  destruct (gate env n) eqn:Hg; cbn [length]; [| lia].
  assert (Hmod : n mod 200 = 0%nat).
  { unfold gate in Hg. destruct (t_sunlit (env n)) as [[] | e];
      try discriminate Hg. apply Nat.eqb_eq. exact Hg. }
  lia.
Qed.

(** X10. A run whose cycle ended without an exception after [N]
    iterations has taken at most one picture for every 200 iterations
    begun, whatever the sunlit test answered. *)
Theorem photo_count_bound (fs0 : gmap string content) (b : boot)
    (env : nat -> tick) (fuel : nat) (res : result) (N : nat)
    (Hrun : main fs0 b env fuel = Some res)
    (Hok : r_try res = Ret tt)
    (HN : count (r_final res) = Some N) :
  phcounter (r_final res) <= (N + 199) / 200.
Proof.
  destruct (main_normal fs0 b env fuel res Hrun Hok)
    as (N' & s2 & -> & R & _ & _).
  destruct (finish_bound (Ret tt) s2 N' (run_count _ _ _ _ R))
    as (_ & _ & Hc & Hp & _).
  rewrite Hc in HN. injection HN as ->.
  rewrite Hp, (run_phcounter _ _ _ _ R). apply captures_bound.
Qed.





Lemma take_photo_stdout (n : nat) (ts : Z) (t : tick) (s : machine) :
  stdout (snd (take_photo n ts t s)) = stdout s.
Proof.
  unfold take_photo, capture, bind, call, modify, get.
  destruct (t_capture_coordinates t) as [loc | e1]; [| reflexivity].
  destruct (Exif.convert loc.1) as [south lat].
  destruct (Exif.convert loc.2) as [west lon]. cbn.
  destruct (t_camera t) as [[] | e2]; [| reflexivity]. cbn.
  destruct (t_stretch t) as [[] | e3]; [| reflexivity]. cbn.
  destruct (t_ndvi t) as [[] | e4]; reflexivity.
Qed.

(** An iteration that completes prints its tuple and nothing else. *)
Lemma loop_body_stdout (t : tick) (s s' : machine) (n : nat) :
  count s = Some n ->
  loop_body t s = (Ret tt, s') ->
  count s' = Some (S n)
  /\ exists r, read_sensors t = Ret r
       /\ stdout s' = (stdout s ++ [Tuple (data_row n (t_timestmp t) r)])%list.
Proof.
  intros Hn H.
  unfold loop_body, record_sample, add_csv_data, read_count in H.
  unfold bind at 1 2 in H. unfold call at 1 in H.
  destruct (read_sensors t) as [r | e]; [| discriminate H].
  unfold bind at 1 in H. rewrite Hn in H.
  unfold bind at 1 2 3 4 in H. unfold modify at 1, get at 1, call at 1 in H.
  destruct (t_append t) as [[] | e]; [| discriminate H].
  cbn [modify ret] in H. unfold modify at 1, ret at 1 in H.
  unfold bind at 1 in H. unfold call at 1 in H.
  destruct (t_sunlit t) as [lit | e]; [| discriminate H].
  unfold bind at 1 in H.
  match type of H with
  | match ?blk ?s1 with _ => _ end = _ =>
      destruct (blk s1) as [o2 s2] eqn:H2;
      assert (Hout : stdout s2 = stdout s1);
      [ destruct lit; [destruct (n mod 200 =? 0)%nat |];
        try (inversion H2; subst; reflexivity);
        pose proof (take_photo_stdout n (t_timestmp t) t s1) as Hs;
        rewrite H2 in Hs; exact Hs
      | ]
  end.
  destruct o2 as [[] | e]; [| discriminate H].
  unfold bind, modify in H. inversion H; subst; clear H. cbn.
  split; [f_equal; lia |].
  exists r. split; [reflexivity |]. rewrite Hout. reflexivity.
Qed.

Lemma cycle_stdout (env : nat -> tick) (fuel : nat) :
  forall (n : nat) (s s' : machine),
  count s = Some n ->
  recording_cycle env fuel n s = Some (Ret tt, s') ->
  exists (N : nat) (rows : list (list cell)),
    count s' = Some N /\ n <= N
    /\ map Some rows = map (row_of env) (seq n (N - n))
    /\ stdout s' = (stdout s ++ map Tuple rows)%list.
Proof.
  induction fuel as [| fuel IH]; intros n s s' Hn H; cbn in H;
    destruct (now_time s <? start_time s + minutes 175)%Z;
    try discriminate H.
  - inversion H; subst. exists n, []. rewrite Nat.sub_diag, app_nil_r.
    repeat split; [exact Hn | lia].
  - destruct (loop_body (env n) s) as [[[] | e] s1] eqn:Hbody;
      [| discriminate H].
    destruct (loop_body_stdout _ _ _ _ Hn Hbody) as (Hn1 & r & Hr & Hout).
    destruct (IH (S n) s1 s' Hn1 H) as (N & rows & HN & Hle & Hrows & Hout').
    exists N, (data_row n (t_timestmp (env n)) r :: rows).
    split; [exact HN |]. split; [lia |]. split.
    + replace (N - n)%nat with (S (N - S n)) by lia.
      cbn [seq map]. rewrite Hrows. unfold row_of at 2. rewrite Hr.
      reflexivity.
    + rewrite Hout', Hout, <- app_assoc. reflexivity.
  - inversion H; subst. exists n, []. rewrite Nat.sub_diag, app_nil_r.
    repeat split; [exact Hn | lia].
Qed.

Lemma map_Some_inj (A : Type) (l1 l2 : list A) :
  map Some l1 = map Some l2 -> l1 = l2.
Proof.
  revert l2. induction l1 as [| a l1 IH]; intros [| b l2] H;
    try discriminate H; [reflexivity |].
  cbn in H. injection H as -> H. f_equal. apply IH. exact H.
Qed.

(** X12. In a run whose cycle ended without an exception, the standard
    output is the line of the start, then the tuple of every row of the log,
    in the order of the log, then the two lines of the report. *)
Theorem output_echoes_log (fs0 : gmap string content) (b : boot)
    (env : nat -> tick) (fuel : nat) (res : result) (N : nat)
    (Hrun : main fs0 b env fuel = Some res)
    (Hok : r_try res = Ret tt)
    (HN : count (r_final res) = Some N) :
  exists rows : list (list cell),
    files (r_final res) !! log_file b = Some (Csv (header :: rows))
    /\ stdout (r_final res)
       = (Line ("Logging data started at "
                ++ strftime h (b_started b) "%d %b %y %H:%M:%S")
          :: map Tuple rows ++ report N)%list.
Proof.
  pose proof (prologue_cases fs0 b) as Hp. cbv zeta in Hp.
  unfold main in Hrun.
  destruct (prologue b (initial fs0)) as [o s1] eqn:Hpro. cbn [fst snd] in Hp.
  destruct o as [[] | e];
    [| injection Hrun as <-; rewrite finish_try in Hok; discriminate Hok].
  assert (Hout1 : stdout s1
            = [Line ("Logging data started at "
                     ++ strftime h (b_started b) "%d %b %y %H:%M:%S")]).
  { destruct (b_ephemeris b) as [[] | e1];
      [destruct (b_folders b) as [[] | e2];
       [destruct (b_create b) as [[] | e3] | ] |];
      destruct Hp as (Ho & Hrest); try discriminate Ho.
    destruct Hrest as (_ & _ & _ & _ & Hout). exact Hout. }
  destruct (prologue_ret fs0 b env s1 Hpro) as [R Hnow].
  destruct (recording_cycle env fuel 0 s1) as [[r s2] |] eqn:Hcyc;
    [| discriminate Hrun].
  injection Hrun as <-. rewrite finish_try in Hok. subst r.
  destruct (recording_cycle_spec b env fuel 0 s1 _ s2 R Hnow Hcyc)
    as (N' & _ & _ & R2 & _).
  destruct (finish_bound (Ret tt) s2 N' (run_count _ _ _ _ R2))
    as (_ & _ & Hc & _ & Hf & _ & Hout).
  rewrite Hc in HN. injection HN as ->.
  destruct (run_log _ _ _ _ R2) as (rows & Hlog & Hrows).
  destruct (cycle_stdout env fuel 0 s1 s2 (run_count _ _ _ _ R) Hcyc)
    as (N2 & rows2 & HN2 & _ & Hrows2 & Hout2).
  rewrite (run_count _ _ _ _ R2) in HN2. injection HN2 as <-.
  rewrite Nat.sub_0_r, <- Hrows in Hrows2.
  apply map_Some_inj in Hrows2. subst rows2.
  exists rows. split; [rewrite Hf; exact Hlog |].
  rewrite Hout, Hout2, Hout1. reflexivity.
Qed.

End Program.

(** *** Runs on a scripted environment *)

(** Stand-ins for the library functions: a datetime is shown as its
    microsecond count, whatever the format, and [sqrt] is read off a table
    that has the one value the runs below need. *)
Definition demo_host : host :=
  {| base_folder := "/home/pi";
     str_datetime := fun t => str_int t;
     strftime := fun t _ => str_int t;
     sqrt := fun q => if Qeq_bool q 9 then 3%Q else 0%Q |}.

(** A prologue in which every call returns; the program starts at 0. *)
Definition demo_boot : boot :=
  {| b_ephemeris := Ret tt; b_start_time := 0; b_now_time := 1;
     b_folders := Ret tt; b_filetime := 2; b_create := Ret tt;
     b_started := 3 |}.

(** A prologue in which the ephemeris file cannot be loaded. *)
Definition no_ephemeris_boot : boot :=
  {| b_ephemeris := Raise (Exn "FileNotFoundError" "/home/pi/de421.bsp");
     b_start_time := 0; b_now_time := 1;
     b_folders := Ret tt; b_filetime := 2; b_create := Ret tt;
     b_started := 3 |}.

(** An iteration in which every call returns, with the given answer of the
    sunlit test and the given reading of the clock at its end. *)
Definition steady_tick (lit : bool) (now : Z) : tick :=
  {| t_timestmp := now - 1;
     t_coordinates := Ret (- (455 # 10), 10 # 1)%Q;
     t_compass := Ret {| x := 1; y := 2; z := 2 |}%Q;
     t_accelerometer := Ret {| x := 0; y := 0; z := 1 |}%Q;
     t_orientation := Ret {| pitch := 1 # 3; roll := 2; yaw := 3 |}%Q;
     t_append := Ret tt;
     t_sunlit := Ret lit;
     t_capture_coordinates := Ret (- (455 # 10), 10 # 1)%Q;
     t_camera := Ret tt;
     t_stretch := Ret tt;
     t_ndvi := Ret tt;
     t_now := now |}.



(** [n] sunlit iterations, one microsecond apart, the last of which ends
    after the deadline. *)
Definition short_env (n : nat) (i : nat) : tick :=
  steady_tick true
    (if (S i <? n)%nat then 10 + Z.of_nat i else minutes 175).

(** Sunlit iterations, one second apart, for ever. *)
Definition steady_env (i : nat) : tick :=
  steady_tick true (Z.of_nat (S i) * 1000000).


(** The row that the iterations above write as row [i] at time [ts]. *)
Definition demo_row (i : nat) (ts : Z) : list cell :=
  [Int i; Text (str_int ts); Float (- (455000 # 10000)); Float (100000 # 10000);
   Float (1000 # 1000); Float (2000 # 1000); Float (2000 # 1000);
   Float (3000 # 1000);
   Float (0 # 1000); Float (0 # 1000); Float (1000 # 1000);
   Float (33 # 100); Float (200 # 100); Float (300 # 100)].


(** C1, on the code. A run of one iteration writes one row and ends
    without an exception, and the report says "Recorded measurements: 0":
    the number printed is [count - 1], one less than the rows recorded.
    When the ephemeris cannot be loaded, [count] is not bound yet: the
    [finally] clause raises NameError and nothing is printed. *)
Theorem final_report_is_one_less :
  option_map
    (fun r => (r_try r, r_exit r, count (r_final r),
               files (r_final r) !! log_file demo_host demo_boot,
               stdout (r_final r)))
    (main demo_host ∅ demo_boot (short_env 1) 2)
  = Some (Ret tt, Ret tt, Some 1%nat,
          Some (Csv [header; demo_row 0 (minutes 175 - 1)]),
          [Line "Logging data started at 3";
           Tuple (demo_row 0 (minutes 175 - 1));
           Line "Recorded measurements: 0"; Line "Thank you"])
  /\ option_map
       (fun r => (r_try r, r_exit r, count (r_final r), stdout (r_final r)))
       (main demo_host ∅ no_ephemeris_boot (short_env 1) 2)
     = Some (Raise (Exn "FileNotFoundError" "/home/pi/de421.bsp"),
             Raise (Exn "NameError" "name 'count' is not defined"),
             None, []).
Proof. split; vm_compute; reflexivity. Qed.

(** A run of three iterations. *)
Lemma log_of_successful_run_witness :
  exists (res : result) (rows : list (list cell)),
    main demo_host ∅ demo_boot (short_env 3) 4 = Some res
    /\ r_try res = Ret tt
    /\ count (r_final res) = Some 3%nat
    /\ files (r_final res) !! log_file demo_host demo_boot
       = Some (Csv (header :: rows))
    /\ length (header :: rows) = 4%nat
    /\ map row_id rows = [Some 0; Some 1; Some 2]%nat.
Proof.
  destruct (main demo_host ∅ demo_boot (short_env 3) 4) as [res |] eqn:Hrun.
  - assert (Hok : r_try res = Ret tt).
    { assert (H : option_map r_try
                    (main demo_host ∅ demo_boot (short_env 3) 4)
                  = Some (Ret tt)) by (vm_compute; reflexivity).
      rewrite Hrun in H. injection H as H. exact H. }
    assert (HN : count (r_final res) = Some 3%nat).
    { assert (H : option_map (fun r => count (r_final r))
                    (main demo_host ∅ demo_boot (short_env 3) 4)
                  = Some (Some 3%nat)) by (vm_compute; reflexivity).
      rewrite Hrun in H. injection H as H. exact H. }
    destruct (log_of_successful_run demo_host ∅ demo_boot (short_env 3) 4
                res 3 Hrun Hok HN)
      as (rows & Hlog & Hlen & _ & _ & Hids & _).
    exists res, rows. repeat (split; [assumption || reflexivity |]).
    exact Hids.
  - exfalso.
    assert (H : option_map (fun _ => tt)
                  (main demo_host ∅ demo_boot (short_env 3) 4)
                = Some tt) by (vm_compute; reflexivity).
    rewrite Hrun in H. discriminate H.
Defined.

(** A run of 401 iterations, sunlit throughout. *)
Lemma capture_gate_witness :
  exists res : result,
    main demo_host ∅ demo_boot (short_env 401) 402 = Some res
    /\ r_try res = Ret tt
    /\ count (r_final res) = Some 401%nat
    /\ captures (short_env 401) 401 = [0; 200; 400]%nat
    /\ phcounter (r_final res) = 3%nat.
Proof.
  destruct (main demo_host ∅ demo_boot (short_env 401) 402)
    as [res |] eqn:Hrun.
  - assert (Hok : r_try res = Ret tt).
    { assert (H : option_map r_try
                    (main demo_host ∅ demo_boot (short_env 401) 402)
                  = Some (Ret tt)) by (vm_compute; reflexivity).
      rewrite Hrun in H. injection H as H. exact H. }
    assert (HN : count (r_final res) = Some 401%nat).
    { assert (H : option_map (fun r => count (r_final r))
                    (main demo_host ∅ demo_boot (short_env 401) 402)
                  = Some (Some 401%nat)) by (vm_compute; reflexivity).
      rewrite Hrun in H. injection H as H. exact H. }
    destruct (capture_gate demo_host ∅ demo_boot (short_env 401) 402
                res 401 Hrun Hok HN) as (_ & _ & _ & _ & H401 & _).
    exists res. repeat (split; [assumption || reflexivity |]).
    apply H401; [reflexivity | intros i Hi; reflexivity].
  - exfalso.
    assert (H : option_map (fun _ => tt)
                  (main demo_host ∅ demo_boot (short_env 401) 402)
                = Some tt) by (vm_compute; reflexivity).
    rewrite Hrun in H. discriminate H.
Defined.

(** A clock that gains a second with every iteration. *)
Lemma mission_terminates_witness :
  (forall i, (t_now (steady_env i) < t_now (steady_env (S i)))%Z)
  /\ exists (fuel : nat) (res : result),
       main demo_host ∅ demo_boot steady_env fuel = Some res
       /\ forall k, main demo_host ∅ demo_boot steady_env (fuel + k)
                    = Some res.
Proof.
  assert (Hclock : forall i,
             (t_now (steady_env i) < t_now (steady_env (S i)))%Z)
    by (intros i; cbn [t_now steady_env steady_tick]; lia).
  split; [exact Hclock |].
  destruct (mission_terminates demo_host ∅ demo_boot steady_env Hclock)
    as (fuel & res & Hrun & Hmore & _).
  exists fuel, res. split; assumption.
Defined.



(** *** Runs for the further properties *)

(** An iteration in which the stretch of the picture raises. *)
Definition stretch_error : exn := Exn "error" "imread returned None".

Definition stretch_failing_tick (now : Z) : tick :=
  {| t_timestmp := now - 1;
     t_coordinates := Ret (- (455 # 10), 10 # 1)%Q;
     t_compass := Ret {| x := 1; y := 2; z := 2 |}%Q;
     t_accelerometer := Ret {| x := 0; y := 0; z := 1 |}%Q;
     t_orientation := Ret {| pitch := 1 # 3; roll := 2; yaw := 3 |}%Q;
     t_append := Ret tt;
     t_sunlit := Ret true;
     t_capture_coordinates := Ret (- (455 # 10), 10 # 1)%Q;
     t_camera := Ret tt;
     t_stretch := Raise stretch_error;
     t_ndvi := Ret tt;
     t_now := now |}.





Lemma processing_failure_keeps_capture_witness :
  let s' := snd (take_photo demo_host 0 9 (stretch_failing_tick 10)
                   (initial ∅)) in
  fst (take_photo demo_host 0 9 (stretch_failing_tick 10) (initial ∅))
  = Raise stretch_error
  /\ phcounter s' = 1%nat
  /\ files s' !! ndvi_file demo_host 0 = None
  /\ files s' !! photo_file demo_host 0 = Some (RawPhoto 0 (exif_tags s')).
Proof.
  destruct (processing_failure_keeps_capture demo_host 0 9
              (stretch_failing_tick 10) (initial ∅)
              (- (455 # 10), 10 # 1)%Q stretch_error eq_refl eq_refl
              (or_introl eq_refl))
    as (H1 & H2 & _ & H4 & H5).
  cbn [phcounter files initial] in H2, H4, H5.
  cbv zeta. split; [exact H1 |]. split; [exact H2 |].
  split; [rewrite H4; apply lookup_empty | exact H5].
Defined.



Lemma photo_count_bound_witness :
  exists res : result,
    main demo_host ∅ demo_boot (short_env 3) 4 = Some res
    /\ r_try res = Ret tt
    /\ count (r_final res) = Some 3%nat
    /\ phcounter (r_final res) <= 1.
Proof.
  destruct (main demo_host ∅ demo_boot (short_env 3) 4) as [res |] eqn:Hrun.
  - assert (Hok : r_try res = Ret tt).
    { assert (H : option_map r_try
                    (main demo_host ∅ demo_boot (short_env 3) 4)
                  = Some (Ret tt)) by (vm_compute; reflexivity).
      rewrite Hrun in H. injection H as H. exact H. }
    assert (HN : count (r_final res) = Some 3%nat).
    { assert (H : option_map (fun r => count (r_final r))
                    (main demo_host ∅ demo_boot (short_env 3) 4)
                  = Some (Some 3%nat)) by (vm_compute; reflexivity).
      rewrite Hrun in H. injection H as H. exact H. }
    exists res. repeat (split; [assumption || reflexivity |]).
    exact (photo_count_bound demo_host ∅ demo_boot (short_env 3) 4 res 3
             Hrun Hok HN).
  - exfalso.
    assert (H : option_map (fun _ => tt)
                  (main demo_host ∅ demo_boot (short_env 3) 4)
                = Some tt) by (vm_compute; reflexivity).
    rewrite Hrun in H. discriminate H.
Defined.


Lemma output_echoes_log_witness :
  exists (res : result) (rows : list (list cell)),
    main demo_host ∅ demo_boot (short_env 3) 4 = Some res
    /\ r_try res = Ret tt
    /\ count (r_final res) = Some 3%nat
    /\ files (r_final res) !! log_file demo_host demo_boot
       = Some (Csv (header :: rows))
    /\ stdout (r_final res)
       = (Line "Logging data started at 3"
          :: map Tuple rows
             ++ [Line "Recorded measurements: 2"; Line "Thank you"])%list.
Proof.
  destruct (main demo_host ∅ demo_boot (short_env 3) 4) as [res |] eqn:Hrun.
  - assert (Hok : r_try res = Ret tt).
    { assert (H : option_map r_try
                    (main demo_host ∅ demo_boot (short_env 3) 4)
                  = Some (Ret tt)) by (vm_compute; reflexivity).
      rewrite Hrun in H. injection H as H. exact H. }
    assert (HN : count (r_final res) = Some 3%nat).
    { assert (H : option_map (fun r => count (r_final r))
                    (main demo_host ∅ demo_boot (short_env 3) 4)
                  = Some (Some 3%nat)) by (vm_compute; reflexivity).
      rewrite Hrun in H. injection H as H. exact H. }
    destruct (output_echoes_log demo_host ∅ demo_boot (short_env 3) 4 res 3
                Hrun Hok HN) as (rows & Hlog & Hout).
    exists res, rows. repeat (split; [assumption || reflexivity |]).
    exact Hout.
  - exfalso.
    assert (H : option_map (fun _ => tt)
                  (main demo_host ∅ demo_boot (short_env 3) 4)
                = Some tt) by (vm_compute; reflexivity).
    rewrite Hrun in H. discriminate H.
Defined.

End Mission.
